(** * Device registry and telemetry ingestion (web-admin server)

    A shallow embedding of the request handlers of
    [web-admin/server/controllers/deviceController.js], of the heartbeat
    route of [routes/api.js] and of the storage adapter
    [config/database.js], together with the relational schema the adapter
    creates.

    The adapter selects its backend with [process.env.DB_TYPE || 'sqlite'];
    this development covers the default backend, SQLite.  The statements the
    controller sends are the same text for both backends up to the spelling
    of the boolean literal ([TRUE] / [1]).

    Conventions.
    - A table is the list of its rows in rowid (insertion) order.
    - [CURRENT_TIMESTAMP] is a number of seconds ([datetime]); every
      statement of one request reads the same clock value [now].
    - A request field that is absent is [None]; node-sqlite3 leaves such a
      parameter unbound and SQLite reads an unbound parameter as NULL.
    - The [page] and [limit] of a query string are decimal integers, and
      they and the row counts are integers that a JavaScript number
      represents exactly, so [Math.ceil (total / limit)] is integer
      ceiling division.
    - A handler body is a tree of awaited statements.  It is run either
      alone, with a list that says under which of its statements the
      storage fails, or together with a second body, statement by
      statement under a schedule. *)

From Stdlib Require Import ZArith List Bool String Ascii Lia QArith.
From Stdlib Require Import Sorted Permutation.
Import ListNotations.

Open Scope string_scope.
Open Scope list_scope.
Open Scope Z_scope.

(** ** Schema *)

Definition datetime := Z.

(** [CREATE TABLE devices] *)
Record device := mkDevice {
  id : Z;                          (* INTEGER PRIMARY KEY AUTOINCREMENT *)
  device_id : string;              (* TEXT UNIQUE NOT NULL *)
  model : string;                  (* TEXT NOT NULL *)
  manufacturer : string;           (* TEXT NOT NULL *)
  os_version : option string;      (* TEXT *)
  app_version : option string;     (* TEXT *)
  first_seen : datetime;           (* DEFAULT CURRENT_TIMESTAMP *)
  last_seen : datetime;            (* DEFAULT CURRENT_TIMESTAMP *)
  is_active : bool;                (* BOOLEAN DEFAULT 1 *)
  created_at : datetime;           (* DEFAULT CURRENT_TIMESTAMP *)
  updated_at : datetime            (* DEFAULT CURRENT_TIMESTAMP *)
}.

(** [CREATE TABLE device_logs]; the table declares
    [FOREIGN KEY (device_id) REFERENCES devices(device_id) ON DELETE CASCADE]. *)
Record device_log := mkLog {
  log_id : Z;                      (* INTEGER PRIMARY KEY AUTOINCREMENT *)
  log_device_id : string;          (* TEXT NOT NULL *)
  battery_level : option Z;        (* INTEGER *)
  network_status : option string;  (* TEXT *)
  latitude : option Q;             (* REAL *)
  longitude : option Q;            (* REAL *)
  local_ip : option string;        (* TEXT *)
  public_ip : option string;       (* TEXT *)
  timestamp : Z;                   (* INTEGER NOT NULL *)
  log_created_at : datetime        (* DEFAULT CURRENT_TIMESTAMP *)
}.

(** The connection and the two tables behind it.  [foreign_keys] is the
    connection's [PRAGMA foreign_keys] setting: SQLite checks and cascades
    foreign keys only on a connection that switched it on.  The two [_seq]
    fields are the AUTOINCREMENT counters. *)
Record database := mkDatabase {
  foreign_keys : bool;
  devices : list device;
  devices_seq : Z;
  device_logs : list device_log;
  device_logs_seq : Z
}.

(** [initializeSQLite] opens the file and promisifies [run], [get] and
    [all]; it issues no PRAGMA, so the connection keeps SQLite's default,
    foreign keys off.  [createTables] then creates the empty tables. *)
Definition initializeSQLite : database :=
  {| foreign_keys := false;
     devices := []; devices_seq := 0;
     device_logs := []; device_logs_seq := 0 |}.

(** ** SQL operators used by the statements *)

(** ASCII case folding, as SQLite's LIKE does it. *)
Definition lower (c : ascii) : ascii :=
  let n := nat_of_ascii c in
  if andb (Nat.leb 65 n) (Nat.leb n 90) then ascii_of_nat (n + 32) else c.

Definition eq_nocase (c d : ascii) : bool :=
  Ascii.eqb (lower c) (lower d).

(** [s LIKE p]: [%] matches any run of characters, [_] exactly one, any
    other character itself up to ASCII case. *)
Fixpoint like (p s : string) {struct p} : bool :=
  match p with
  | EmptyString => match s with EmptyString => true | _ => false end
  | String c p' =>
      if Ascii.eqb c "%" then
        (fix any_suffix (t : string) : bool :=
           like p' t ||
           match t with
           | EmptyString => false
           | String _ t' => any_suffix t'
           end) s
      else
        match s with
        | EmptyString => false
        | String d s' =>
            (if Ascii.eqb c "_" then true else eq_nocase c d) && like p' s'
        end
  end.

(** [ORDER BY key DESC]: rows come out by decreasing key.  SQL leaves the
    order of rows with equal keys open; the model keeps them in rowid
    order. *)
Section OrderBy.
Context {A : Type} (key : A -> Z).

Fixpoint insert_desc (x : A) (l : list A) : list A :=
  match l with
  | [] => [x]
  | y :: l' => if key y <=? key x then x :: l else y :: insert_desc x l'
  end.

Definition order_by_desc (l : list A) : list A :=
  fold_right insert_desc [] l.
End OrderBy.

(** [LIMIT lim OFFSET off]: SQLite reads a negative LIMIT as no limit and a
    negative OFFSET as 0. *)
Definition limit_offset {A : Type} (lim off : Z) (rows : list A) : list A :=
  let rest := skipn (Z.to_nat off) rows in
  if lim <? 0 then rest else firstn (Z.to_nat lim) rest.

(** [COUNT( * )] *)
Definition count {A : Type} (rows : list A) : Z := Z.of_nat (List.length rows).

(** [WHERE device_id = ?] with the bound parameter; a comparison with NULL
    selects no row. *)
Definition sql_eq (column : string) (param : option string) : bool :=
  match param with
  | Some v => String.eqb column v
  | None => false
  end.

(** The WHERE clause [getAllDevices] assembles: an optional
    [(device_id LIKE ? OR model LIKE ? OR manufacturer LIKE ?)] with the
    same pattern three times, and an optional [is_active = 1] or
    [is_active = 0]. *)
Record where_clause := mkWhere {
  like_pattern : option string;
  is_active_is : option bool
}.

Definition where_holds (w : where_clause) (r : device) : bool :=
  match w.(like_pattern) with
  | Some p => like p r.(device_id) || like p r.(model) || like p r.(manufacturer)
  | None => true
  end
  &&
  match w.(is_active_is) with
  | Some b => Bool.eqb r.(is_active) b
  | None => true
  end.

(** The seven columns of the latest-log query. *)
Record latest_log := mkLatest {
  ll_battery_level : option Z;
  ll_network_status : option string;
  ll_latitude : option Q;
  ll_longitude : option Q;
  ll_local_ip : option string;
  ll_public_ip : option string;
  ll_timestamp : Z
}.

Definition latest_columns (l : device_log) : latest_log :=
  {| ll_battery_level := l.(battery_level);
     ll_network_status := l.(network_status);
     ll_latitude := l.(latitude);
     ll_longitude := l.(longitude);
     ll_local_ip := l.(local_ip);
     ll_public_ip := l.(public_ip);
     ll_timestamp := l.(timestamp) |}.

(** ** The statements the handlers send

    One constructor per SQL text of the source; the index is the type of
    what [database.get], [database.all] or [database.execute] resolves to. *)
Inductive dbcall : Type -> Type :=
  (* get: SELECT id FROM devices WHERE device_id = ? *)
| select_device_id (d : option string) : dbcall (option Z)
  (* get: SELECT * FROM devices WHERE device_id = ? *)
| select_device (d : option string) : dbcall (option device)
  (* execute: UPDATE devices SET model = ?, manufacturer = ?, os_version = ?,
     app_version = ?, last_seen = CURRENT_TIMESTAMP, is_active = 1
     WHERE device_id = ? *)
| update_device (m mf os app d : option string) : dbcall unit
  (* execute: INSERT INTO devices
     (device_id, model, manufacturer, os_version, app_version) VALUES (?,?,?,?,?) *)
| insert_device (d m mf os app : option string) : dbcall unit
  (* execute: INSERT INTO device_logs (device_id, battery_level, network_status,
     latitude, longitude, local_ip, public_ip, timestamp) VALUES (?,?,?,?,?,?,?,?) *)
| insert_device_log (d : option string) (battery : option Z)
    (network : option string) (lat lon : option Q)
    (lip pip : option string) (ts : option Z) : dbcall unit
  (* execute: UPDATE devices SET last_seen = CURRENT_TIMESTAMP, is_active = 1
     WHERE device_id = ? *)
| update_last_seen_active (d : option string) : dbcall unit
  (* execute: UPDATE devices SET last_seen = CURRENT_TIMESTAMP WHERE device_id = ? *)
| update_last_seen (d : option string) : dbcall unit
  (* execute: DELETE FROM devices WHERE device_id = ? *)
| delete_device (d : option string) : dbcall unit
  (* get: SELECT COUNT( * ) as total FROM devices<where>; the [total] column *)
| count_devices (w : where_clause) : dbcall Z
  (* all: SELECT id, device_id, ..., updated_at FROM devices <where>
     ORDER BY last_seen DESC LIMIT ? OFFSET ? *)
| select_devices (w : where_clause) (lim off : Z) : dbcall (list device)
  (* get: SELECT battery_level, ..., timestamp FROM device_logs
     WHERE device_id = ? ORDER BY timestamp DESC LIMIT 1 *)
| select_latest_log (d : option string) : dbcall (option latest_log)
  (* all: SELECT * FROM device_logs WHERE device_id = ?
     ORDER BY timestamp DESC LIMIT ? OFFSET ? *)
| select_device_logs (d : option string) (lim off : Z) : dbcall (list device_log)
  (* get: SELECT COUNT( * ) as total FROM device_logs WHERE device_id = ?;
     the [total] column *)
| count_device_logs (d : option string) : dbcall Z.

Definition set_devices (db : database) (ds : list device) : database :=
  {| foreign_keys := db.(foreign_keys);
     devices := ds; devices_seq := db.(devices_seq);
     device_logs := db.(device_logs); device_logs_seq := db.(device_logs_seq) |}.

(** [UPDATE devices SET ... WHERE device_id = ?]: every selected row is
    rewritten by [f], the others stay. *)
Definition update_where (d : option string) (f : device -> device)
    (db : database) : database :=
  set_devices db
    (map (fun r => if sql_eq r.(device_id) d then f r else r) db.(devices)).

Definition exists_device (d : option string) (db : database) : bool :=
  existsb (fun r => sql_eq r.(device_id) d) db.(devices).

(** What one statement does to the database at clock value [now]; [None]
    is a statement the engine rejects (a violated constraint), which the
    adapter's promise turns into a thrown error. *)
Definition perform {A : Type} (c : dbcall A) (now : datetime) (db : database)
    : option (A * database) :=
  match c in dbcall T return option (T * database) with
  | select_device_id d =>
      Some (option_map id (find (fun r => sql_eq r.(device_id) d) db.(devices)), db)
  | select_device d =>
      Some (find (fun r => sql_eq r.(device_id) d) db.(devices), db)
  | update_device m mf os app d =>
      match m, mf with
      | Some m', Some mf' =>
          Some (tt, update_where d (fun r =>
            {| id := r.(id); device_id := r.(device_id);
               model := m'; manufacturer := mf';
               os_version := os; app_version := app;
               first_seen := r.(first_seen); last_seen := now;
               is_active := true;
               created_at := r.(created_at); updated_at := r.(updated_at) |}) db)
      | _, _ =>
          (* NOT NULL on model and manufacturer: rejected when a row is hit *)
          if exists_device d db then None else Some (tt, db)
      end
  | insert_device d m mf os app =>
      match d, m, mf with
      | Some d', Some m', Some mf' =>
          if exists_device d db then None      (* UNIQUE (device_id) *)
          else
            let n := db.(devices_seq) + 1 in
            Some (tt,
              {| foreign_keys := db.(foreign_keys);
                 devices := db.(devices) ++
                   [ {| id := n; device_id := d'; model := m'; manufacturer := mf';
                        os_version := os; app_version := app;
                        first_seen := now; last_seen := now; is_active := true;
                        created_at := now; updated_at := now |} ];
                 devices_seq := n;
                 device_logs := db.(device_logs);
                 device_logs_seq := db.(device_logs_seq) |})
      | _, _, _ => None                        (* NOT NULL *)
      end
  | insert_device_log d battery network lat lon lip pip ts =>
      match d, ts with
      | Some d', Some ts' =>
          if db.(foreign_keys) && negb (exists_device d db) then None
          else
            let n := db.(device_logs_seq) + 1 in
            Some (tt,
              {| foreign_keys := db.(foreign_keys);
                 devices := db.(devices); devices_seq := db.(devices_seq);
                 device_logs := db.(device_logs) ++
                   [ {| log_id := n; log_device_id := d';
                        battery_level := battery; network_status := network;
                        latitude := lat; longitude := lon;
                        local_ip := lip; public_ip := pip;
                        timestamp := ts'; log_created_at := now |} ];
                 device_logs_seq := n |})
      | _, _ => None                           (* NOT NULL *)
      end
  | update_last_seen_active d =>
      Some (tt, update_where d (fun r =>
        {| id := r.(id); device_id := r.(device_id);
           model := r.(model); manufacturer := r.(manufacturer);
           os_version := r.(os_version); app_version := r.(app_version);
           first_seen := r.(first_seen); last_seen := now; is_active := true;
           created_at := r.(created_at); updated_at := r.(updated_at) |}) db)
  | update_last_seen d =>
      Some (tt, update_where d (fun r =>
        {| id := r.(id); device_id := r.(device_id);
           model := r.(model); manufacturer := r.(manufacturer);
           os_version := r.(os_version); app_version := r.(app_version);
           first_seen := r.(first_seen); last_seen := now;
           is_active := r.(is_active);
           created_at := r.(created_at); updated_at := r.(updated_at) |}) db)
  | delete_device d =>
      Some (tt,
        {| foreign_keys := db.(foreign_keys);
           devices := filter (fun r => negb (sql_eq r.(device_id) d)) db.(devices);
           devices_seq := db.(devices_seq);
           device_logs :=
             (if db.(foreign_keys)                (* ON DELETE CASCADE *)
              then filter (fun l => negb (sql_eq l.(log_device_id) d)) db.(device_logs)
              else db.(device_logs));
           device_logs_seq := db.(device_logs_seq) |})
  | count_devices w =>
      Some (count (filter (where_holds w) db.(devices)), db)
  | select_devices w lim off =>
      Some (limit_offset lim off
              (order_by_desc last_seen (filter (where_holds w) db.(devices))), db)
  | select_latest_log d =>
      Some (option_map latest_columns
              (hd_error (order_by_desc timestamp
                 (filter (fun l => sql_eq l.(log_device_id) d) db.(device_logs)))), db)
  | select_device_logs d lim off =>
      Some (limit_offset lim off
              (order_by_desc timestamp
                 (filter (fun l => sql_eq l.(log_device_id) d) db.(device_logs))), db)
  | count_device_logs d =>
      Some (count (filter (fun l => sql_eq l.(log_device_id) d) db.(device_logs)), db)
  end.

(** ** Handlers

    The body of an [async] handler is a tree: it returns, or it awaits one
    statement and goes on with the answer. *)
Inductive handler (R : Type) : Type :=
| Return (r : R)
| Await {A : Type} (c : dbcall A) (k : A -> handler R).

Arguments Return {R} r.
Arguments Await {R A} c k.

Notation "x <- 'await' c ;; k" := (Await c (fun x => k))
  (at level 61, c at next level, right associativity).
Notation "'await' c ;; k" := (Await c (fun _ => k))
  (at level 61, c at next level, right associativity).

(** [Promise.all (xs.map (async x => ... await f x ...))]: the statements
    reach the connection in list order. *)
Fixpoint await_each {A B R : Type} (f : A -> dbcall B) (xs : list A)
    (k : list (A * B) -> handler R) : handler R :=
  match xs with
  | [] => k []
  | x :: xs' =>
      y <- await (f x) ;;
      await_each f xs' (fun rest => k ((x, y) :: rest))
  end.

(** Running a handler body alone on the connection.  [faults] says, call by
    call, whether the storage fails under that statement (disk, lock, lost
    connection); a list that ran out means no further failure.  The result
    is [None] when an error was thrown, with the database as the statements
    before the error left it: the source opens no transaction, so nothing
    is rolled back. *)
Fixpoint run {R : Type} (h : handler R) (now : datetime) (faults : list bool)
    (db : database) : option R * database :=
  match h with
  | Return r => (Some r, db)
  | Await c k =>
      match faults with
      | true :: _ => (None, db)
      | _ =>
          match perform c now db with
          | Some (a, db') => run (k a) now (tl faults) db'
          | None => (None, db)
          end
      end
  end.

(** ** Requests and responses *)

Record pagination := mkPagination {
  pg_page : Z;
  pg_limit : Z;
  pg_total : Z;
  pg_pages : option Z       (* [None]: not a finite number (limit = 0) *)
}.

Inductive body_data :=
| no_data
  (* data: { device_id, status } *)
| registration (d : option string) (status : string)
  (* data: { device_id, timestamp: Date.now(), sync_status } *)
| sync_receipt (d : option string) (date_now : Z) (sync_status : string)
  (* timestamp: Date.now() of the heartbeat answer *)
| heartbeat_receipt (date_now : Z)
  (* errors: errors.array() *)
| validation_errors (msgs : list string)
  (* data: { devices, pagination } *)
| device_page (ds : list (device * option latest_log)) (p : pagination)
  (* data: { device, logs, pagination } *)
| device_detail (dv : device) (logs : list device_log) (p : pagination).

Record response := mkResponse {
  status : Z;                 (* res.status(...), 200 when not set *)
  success : bool;
  message : option string;
  error_code : option string;
  data : body_data
}.

(** [Date.now()]: the same clock in milliseconds. *)
Definition Date_now (now : datetime) : Z := now * 1000.

Definition internal_error (code : option string) : response :=
  {| status := 500; success := false;
     message := Some "Internal server error";
     error_code := code; data := no_data |}.

(** [try { body } catch (error) { return res.status(500).json(...) }] *)
Definition try_catch (body : handler response) (on_error : response)
    (now : datetime) (faults : list bool) (db : database)
    : response * database :=
  match run body now faults db with
  | (Some r, db') => (r, db')
  | (None, db') => (on_error, db')
  end.

(** [req.body] of POST /register *)
Record register_body := mkRegister {
  reg_device_id : option string;
  reg_model : option string;
  reg_manufacturer : option string;
  reg_os_version : option string;
  reg_app_version : option string
}.

(** [req.body] of POST /sync *)
Record sync_body := mkSync {
  sync_device_id : option string;
  sync_battery_level : option Z;
  sync_network_status : option string;
  sync_latitude : option Q;
  sync_longitude : option Q;
  sync_local_ip : option string;
  sync_public_ip : option string;
  sync_timestamp : option Z
}.

(** [req.query] of GET /devices and GET /devices/:deviceId *)
Record list_query := mkQuery {
  q_page : option Z;
  q_limit : option Z;
  q_search : option string;
  q_status : option string
}.

(** *** Validation chains of routes/api.js *)

(** [body(f).notEmpty().withMessage(msg)] *)
Definition notEmpty (v : option string) (msg : string) : list string :=
  match v with
  | Some s => if String.eqb s "" then [msg] else []
  | None => [msg]
  end.

(** [body(f).optional().isInt({ min, max })] *)
Definition optional_isInt (v : option Z) (lo hi : Z) : list string :=
  match v with
  | Some n => if (lo <=? n) && (n <=? hi) then [] else ["Invalid value"]
  | None => []
  end.

(** [body(f).optional().isFloat({ min, max })] *)
Definition optional_isFloat (v : option Q) (lo hi : Z) : list string :=
  match v with
  | Some x =>
      if Qle_bool (inject_Z lo) x && Qle_bool x (inject_Z hi)
      then [] else ["Invalid value"]
  | None => []
  end.

(** [body(f).isInt({ min: 0 }).withMessage(msg)] *)
Definition isInt_min0 (v : option Z) (msg : string) : list string :=
  match v with
  | Some n => if 0 <=? n then [] else [msg]
  | None => [msg]
  end.

Definition deviceRegistrationValidation (b : register_body) : list string :=
  notEmpty b.(reg_device_id) "Device ID is required" ++
  notEmpty b.(reg_model) "Device model is required" ++
  notEmpty b.(reg_manufacturer) "Device manufacturer is required".

Definition deviceSyncValidation (b : sync_body) : list string :=
  notEmpty b.(sync_device_id) "Device ID is required" ++
  optional_isInt b.(sync_battery_level) 0 100 ++
  optional_isFloat b.(sync_latitude) (-90) 90 ++
  optional_isFloat b.(sync_longitude) (-180) 180 ++
  isInt_min0 b.(sync_timestamp) "Valid timestamp is required".

Definition validation_failed (errors : list string) : response :=
  {| status := 400; success := false;
     message := Some "Validation failed";
     error_code := None; data := validation_errors errors |}.

(** The [optional().isString()] checks of the chains hold by typing: an
    optional text field is an [option string]. *)

(** *** deviceController.js *)

Definition ok (code : Z) (msg : option string) (d : body_data) : response :=
  {| status := code; success := true; message := msg;
     error_code := None; data := d |}.

Definition not_found (msg : string) (code : option string) : response :=
  {| status := 404; success := false; message := Some msg;
     error_code := code; data := no_data |}.

(** The [try] block of [registerDevice]. *)
Definition registerDevice_try (b : register_body) : handler response :=
  match deviceRegistrationValidation b with
  | (_ :: _) as errors => Return (validation_failed errors)
  | [] =>
      let device_id := b.(reg_device_id) in
      let model := b.(reg_model) in
      let manufacturer := b.(reg_manufacturer) in
      let os_version := b.(reg_os_version) in
      let app_version := b.(reg_app_version) in
      existingDevice <- await (select_device_id device_id) ;;
      match existingDevice with
      | Some _ =>
          await (update_device model manufacturer os_version app_version device_id) ;;
          Return (ok 200 (Some "Device updated successfully")
                    (registration device_id "updated"))
      | None =>
          await (insert_device device_id model manufacturer os_version app_version) ;;
          Return (ok 201 (Some "Device registered successfully")
                    (registration device_id "registered"))
      end
  end.

Definition registerDevice (now : datetime) (faults : list bool)
    (b : register_body) (db : database) : response * database :=
  try_catch (registerDevice_try b)
    (internal_error (Some "REGISTRATION_FAILED")) now faults db.

(** The [try] block of [syncDeviceData]. *)
Definition syncDeviceData_try (now : datetime) (b : sync_body) : handler response :=
  match deviceSyncValidation b with
  | (_ :: _) as errors => Return (validation_failed errors)
  | [] =>
      let device_id := b.(sync_device_id) in
      dv <- await (select_device_id device_id) ;;
      match dv with
      | None =>
          Return (not_found "Device not found. Please register first."
                    (Some "DEVICE_NOT_FOUND"))
      | Some _ =>
          await (insert_device_log device_id b.(sync_battery_level)
                   b.(sync_network_status) b.(sync_latitude) b.(sync_longitude)
                   b.(sync_local_ip) b.(sync_public_ip) b.(sync_timestamp)) ;;
          await (update_last_seen_active device_id) ;;
          Return (ok 200 (Some "Data synced successfully")
                    (sync_receipt device_id (Date_now now) "completed"))
      end
  end.

Definition syncDeviceData (now : datetime) (faults : list bool)
    (b : sync_body) (db : database) : response * database :=
  try_catch (syncDeviceData_try now b)
    (internal_error (Some "SYNC_FAILED")) now faults db.

(** [Math.ceil (total / limit)] *)
Definition Math_ceil_div (total limit : Z) : option Z :=
  if limit =? 0 then None else Some (- ((- total) / limit)).

(** [const { x = dflt } = req.query] *)
Definition or_default {A : Type} (v : option A) (dflt : A) : A :=
  match v with Some x => x | None => dflt end.

(** The WHERE clause built from [search] and [status]. *)
Definition whereClause (search status : string) : where_clause :=
  {| like_pattern :=
       if String.eqb search "" then None else Some ("%" ++ search ++ "%")%string;
     is_active_is :=
       if String.eqb status "all" then None
       else Some (String.eqb status "active") |}.

(** The [try] block of [getAllDevices]. *)
Definition getAllDevices_try (q : list_query) : handler response :=
  let page := or_default q.(q_page) 1 in
  let limit := or_default q.(q_limit) 50 in
  let search := or_default q.(q_search) "" in
  let status := or_default q.(q_status) "all" in
  let offset := (page - 1) * limit in
  let w := whereClause search status in
  total <- await (count_devices w) ;;
  devices <- await (select_devices w limit offset) ;;
  await_each (fun dv => select_latest_log (Some dv.(device_id))) devices
    (fun devicesWithLogs =>
       Return (ok 200 None
                 (device_page devicesWithLogs
                    {| pg_page := page; pg_limit := limit; pg_total := total;
                       pg_pages := Math_ceil_div total limit |}))).

Definition getAllDevices (now : datetime) (faults : list bool)
    (q : list_query) (db : database) : response * database :=
  try_catch (getAllDevices_try q) (internal_error None) now faults db.

(** The [try] block of [getDeviceDetails]. *)
Definition getDeviceDetails_try (deviceId : string) (q : list_query)
    : handler response :=
  dv <- await (select_device (Some deviceId)) ;;
  match dv with
  | None => Return (not_found "Device not found" None)
  | Some dv =>
      let page := or_default q.(q_page) 1 in
      let limit := or_default q.(q_limit) 100 in
      let offset := (page - 1) * limit in
      logs <- await (select_device_logs (Some deviceId) limit offset) ;;
      logCount <- await (count_device_logs (Some deviceId)) ;;
      Return (ok 200 None
                (device_detail dv logs
                   {| pg_page := page; pg_limit := limit; pg_total := logCount;
                      pg_pages := Math_ceil_div logCount limit |}))
  end.

Definition getDeviceDetails (now : datetime) (faults : list bool)
    (deviceId : string) (q : list_query) (db : database) : response * database :=
  try_catch (getDeviceDetails_try deviceId q) (internal_error None) now faults db.

(** The [try] block of [deleteDevice]. *)
Definition deleteDevice_try (deviceId : string) : handler response :=
  dv <- await (select_device_id (Some deviceId)) ;;
  match dv with
  | None => Return (not_found "Device not found" None)
  | Some _ =>
      (* Delete device (logs will be deleted by CASCADE) *)
      await (delete_device (Some deviceId)) ;;
      Return (ok 200 (Some "Device deleted successfully") no_data)
  end.

Definition deleteDevice (now : datetime) (faults : list bool)
    (deviceId : string) (db : database) : response * database :=
  try_catch (deleteDevice_try deviceId) (internal_error None) now faults db.

(** *** routes/api.js, POST /heartbeat

    The route lists a [notEmpty] check on [device_id] but its handler never
    reads [validationResult], so the check rejects nothing. *)
Definition heartbeat_try (now : datetime) (device_id : option string)
    : handler response :=
  await (update_last_seen device_id) ;;
  Return (ok 200 (Some "Heartbeat received") (heartbeat_receipt (Date_now now))).

Definition heartbeat (now : datetime) (faults : list bool)
    (device_id : option string) (db : database) : response * database :=
  try_catch (heartbeat_try now device_id) (internal_error None) now faults db.

(** ** Requests in flight together

    Node runs a handler up to its next [await] and SQLite executes one
    statement at a time, so two requests in flight interleave statement by
    statement.  A [task] is a handler body with what it answered, if it has
    finished. *)
Record task := mkTask {
  t_now : datetime;
  t_body : handler response;
  t_catch : response
}.

(** One turn of a task: its next statement, or nothing when it has
    answered. *)
Definition turn (t : task) (db : database) : task * database :=
  match t.(t_body) with
  | Return _ => (t, db)
  | Await c k =>
      match perform c t.(t_now) db with
      | Some (a, db') =>
          ({| t_now := t.(t_now); t_body := k a; t_catch := t.(t_catch) |}, db')
      | None =>
          ({| t_now := t.(t_now); t_body := Return t.(t_catch);
              t_catch := t.(t_catch) |}, db)
      end
  end.

Definition answered (t : task) : option response :=
  match t.(t_body) with
  | Return r => Some r
  | Await _ _ => None
  end.

(** Two tasks under a schedule: [true] gives the turn to the first task,
    [false] to the second; a finished task passes its turn on. *)
Fixpoint interleave (schedule : list bool) (a b : task) (db : database)
    : task * task * database :=
  match schedule with
  | [] => (a, b, db)
  | first :: rest =>
      let pick_a :=
        match answered a, answered b with
        | Some _, _ => false
        | None, Some _ => true
        | None, None => first
        end in
      if pick_a
      then let '(a', db') := turn a db in interleave rest a' b db'
      else let '(b', db') := turn b db in interleave rest a b' db'
  end.

Definition registerDevice_task (now : datetime) (b : register_body) : task :=
  {| t_now := now; t_body := registerDevice_try b;
     t_catch := internal_error (Some "REGISTRATION_FAILED") |}.

(** ** Named effects and observations used by the statements below *)

(** The row the INSERT of a registration writes. *)
Definition registered_row (n : Z) (now : datetime) (d m mf : string)
    (os app : option string) : device :=
  {| id := n; device_id := d; model := m; manufacturer := mf;
     os_version := os; app_version := app;
     first_seen := now; last_seen := now; is_active := true;
     created_at := now; updated_at := now |}.

(** What the UPDATE of a registration makes of a row. *)
Definition reregistered_row (now : datetime) (m mf : string)
    (os app : option string) (r : device) : device :=
  {| id := r.(id); device_id := r.(device_id); model := m; manufacturer := mf;
     os_version := os; app_version := app;
     first_seen := r.(first_seen); last_seen := now; is_active := true;
     created_at := r.(created_at); updated_at := r.(updated_at) |}.

Definition with_last_seen (t : datetime) (r : device) : device :=
  {| id := r.(id); device_id := r.(device_id);
     model := r.(model); manufacturer := r.(manufacturer);
     os_version := r.(os_version); app_version := r.(app_version);
     first_seen := r.(first_seen); last_seen := t;
     is_active := r.(is_active);
     created_at := r.(created_at); updated_at := r.(updated_at) |}.

(** The row the INSERT of a sync writes. *)
Definition log_row (n : Z) (now : datetime) (d : string) (b : sync_body)
    (ts : Z) : device_log :=
  {| log_id := n; log_device_id := d;
     battery_level := sync_battery_level b;
     network_status := sync_network_status b;
     latitude := sync_latitude b; longitude := sync_longitude b;
     local_ip := sync_local_ip b; public_ip := sync_public_ip b;
     timestamp := ts; log_created_at := now |}.

(** The database after the INSERT of a sync. *)
Definition with_log (now : datetime) (d : string) (b : sync_body) (ts : Z)
    (db : database) : database :=
  {| foreign_keys := foreign_keys db;
     devices := devices db; devices_seq := devices_seq db;
     device_logs := device_logs db ++
       [log_row (device_logs_seq db + 1) now d b ts];
     device_logs_seq := device_logs_seq db + 1 |}.

(** What the UPDATE of a sync makes of a row. *)
Definition seen_active (now : datetime) (r : device) : device :=
  {| id := r.(id); device_id := r.(device_id);
     model := r.(model); manufacturer := r.(manufacturer);
     os_version := r.(os_version); app_version := r.(app_version);
     first_seen := r.(first_seen); last_seen := now; is_active := true;
     created_at := r.(created_at); updated_at := r.(updated_at) |}.

(** [SELECT COUNT( * ) FROM device_logs WHERE device_id = d] *)
Definition log_count (d : string) (db : database) : Z :=
  count (filter (fun l => sql_eq (log_device_id l) (Some d)) (device_logs db)).

Definition sync_failed : response := internal_error (Some "SYNC_FAILED").

Definition sync_completed (now : datetime) (d : string) : response :=
  ok 200 (Some "Data synced successfully")
    (sync_receipt (Some d) (Date_now now) "completed").

(** A run of sync calls, one after the other, each with its clock value. *)
Fixpoint sync_each (calls : list (datetime * sync_body)) (db : database)
    : list response * database :=
  match calls with
  | [] => ([], db)
  | (now, b) :: rest =>
      let (r, db') := syncDeviceData now [] b db in
      let (rs, db'') := sync_each rest db' in
      (r :: rs, db'')
  end.

(** The database after [DELETE FROM devices WHERE device_id = d]. *)
Definition without_device (d : string) (db : database) : database :=
  {| foreign_keys := foreign_keys db;
     devices := filter (fun r => negb (String.eqb (device_id r) d)) (devices db);
     devices_seq := devices_seq db;
     device_logs :=
       (if foreign_keys db
        then filter (fun l => negb (String.eqb (log_device_id l) d)) (device_logs db)
        else device_logs db);
     device_logs_seq := device_logs_seq db |}.

(** Decreasing keys: every row stands before rows of a key at most its
    own. *)
Definition descending {A : Type} (key : A -> Z) : list A -> Prop :=
  StronglySorted (fun a b => key b <= key a).

(** What the latest-log query answers for a device. *)
Definition latest_log_of (d : string) (db : database) : option latest_log :=
  option_map latest_columns
    (hd_error (order_by_desc timestamp
       (filter (fun l => sql_eq (log_device_id l) (Some d)) (device_logs db)))).

(** The devices a query matches, before ORDER BY and LIMIT. *)
Definition matched (search status : string) (db : database) : list device :=
  filter (where_holds (whereClause search status)) (devices db).

(** The devices and the total a list answer carries. *)
Definition returned_devices (r : response) : list device :=
  match data r with
  | device_page ds _ => map fst ds
  | _ => []
  end.

Definition returned_total (r : response) : option Z :=
  match data r with
  | device_page _ p => Some (pg_total p)
  | _ => None
  end.

(** The database after the INSERT of a registration. *)
Definition with_device (now : datetime) (d m mf : string) (os app : option string)
    (db : database) : database :=
  {| foreign_keys := foreign_keys db;
     devices := devices db ++
       [registered_row (devices_seq db + 1) now d m mf os app];
     devices_seq := devices_seq db + 1;
     device_logs := device_logs db;
     device_logs_seq := device_logs_seq db |}.

(** The rows of one device_id. *)
Definition device_rows (d : string) (db : database) : list device :=
  filter (fun r => String.eqb (device_id r) d) (devices db).

Definition registered_201 (d : string) : response :=
  ok 201 (Some "Device registered successfully")
    (registration (Some d) "registered").

Definition updated_200 (d : string) : response :=
  ok 200 (Some "Device updated successfully") (registration (Some d) "updated").

Definition registration_failed : response :=
  internal_error (Some "REGISTRATION_FAILED").

(** ** The API-key middleware and the device routes (middleware/auth.js,
       routes/api.js) *)

(** A value that is absent or a string is truthy when it is a non-empty
    string. *)
Definition truthy (v : option string) : bool :=
  match v with
  | Some s => negb (String.eqb s "")
  | None => false
  end.

(** [a || b] *)
Definition js_or (a b : option string) : option string :=
  if truthy a then a else b.

(** [a === b] on values that are absent or strings. *)
Definition strict_eq (a b : option string) : bool :=
  match a, b with
  | Some x, Some y => String.eqb x y
  | None, None => true
  | _, _ => false
  end.

(** What a middleware does: hand over to the next handler, or answer. *)
Inductive middleware_result :=
| next
| respond (r : response).

Definition unauthorized (msg : string) (code : option string) : response :=
  {| status := 401; success := false; message := Some msg;
     error_code := code; data := no_data |}.

(** [validateApiKey]: [API_KEY] is [process.env.API_KEY], [x_api_key] the
    request header and [api_key] the query parameter. *)
Definition validateApiKey (API_KEY x_api_key api_key : option string)
    : middleware_result :=
  let apiKey := js_or x_api_key api_key in
  let expectedApiKey := js_or API_KEY (Some "rdm-client-key-2024") in
  if negb (truthy apiKey) then
    respond (unauthorized "API key is required" (Some "MISSING_API_KEY"))
  else if negb (strict_eq apiKey expectedApiKey) then
    respond (unauthorized "Invalid API key" (Some "INVALID_API_KEY"))
  else next.

(** [router.post('/register', validateApiKey, deviceRegistrationValidation,
    registerDevice)]; the validation chain only records its findings, which
    the controller reads. *)
Definition post_register (API_KEY x_api_key api_key : option string)
    (now : datetime) (faults : list bool) (b : register_body) (db : database)
    : response * database :=
  match validateApiKey API_KEY x_api_key api_key with
  | next => registerDevice now faults b db
  | respond r => (r, db)
  end.

(** [router.post('/sync', validateApiKey, deviceSyncValidation,
    syncDeviceData)] *)
Definition post_sync (API_KEY x_api_key api_key : option string)
    (now : datetime) (faults : list bool) (b : sync_body) (db : database)
    : response * database :=
  match validateApiKey API_KEY x_api_key api_key with
  | next => syncDeviceData now faults b db
  | respond r => (r, db)
  end.

(** [router.post('/heartbeat', validateApiKey, [...], async (req, res) => ...)] *)
Definition post_heartbeat (API_KEY x_api_key api_key : option string)
    (now : datetime) (faults : list bool) (device_id : option string)
    (db : database) : response * database :=
  match validateApiKey API_KEY x_api_key api_key with
  | next => heartbeat now faults device_id db
  | respond r => (r, db)
  end.

(** ** Calls in sequence *)

(** One call of a controller function, with its clock value and what the
    storage does under it. *)
Inductive api_call :=
| call_register (now : datetime) (faults : list bool) (b : register_body)
| call_sync (now : datetime) (faults : list bool) (b : sync_body)
| call_heartbeat (now : datetime) (faults : list bool) (d : option string)
| call_delete (now : datetime) (faults : list bool) (deviceId : string)
| call_list (now : datetime) (faults : list bool) (q : list_query)
| call_details (now : datetime) (faults : list bool) (deviceId : string)
    (q : list_query).

Definition serve (c : api_call) (db : database) : response * database :=
  match c with
  | call_register now faults b => registerDevice now faults b db
  | call_sync now faults b => syncDeviceData now faults b db
  | call_heartbeat now faults d => heartbeat now faults d db
  | call_delete now faults deviceId => deleteDevice now faults deviceId db
  | call_list now faults q => getAllDevices now faults q db
  | call_details now faults deviceId q => getDeviceDetails now faults deviceId q db
  end.

(** The database after a run of calls, served one after the other. *)
Definition serve_all (calls : list api_call) (db : database) : database :=
  fold_left (fun db c => snd (serve c db)) calls db.

(** At most one row per device_id. *)
Definition unique_device_ids (db : database) : Prop :=
  NoDup (map device_id (devices db)).

(** Row ids are pairwise different and none is beyond the AUTOINCREMENT
    counter. *)
Definition ids_in_sequence (db : database) : Prop :=
  NoDup (map id (devices db)) /\
  Forall (fun r => id r <= devices_seq db) (devices db).

(** Every telemetry record belongs to a device that has a row. *)
Definition no_orphans (db : database) : Prop :=
  Forall (fun l => exists_device (Some (log_device_id l)) db = true)
         (device_logs db).

(** The payloads the sync validation chain lets through. *)
Definition valid_sync_payload (b : sync_body) : Prop :=
  truthy (sync_device_id b) = true /\
  (forall n, sync_battery_level b = Some n -> 0 <= n <= 100) /\
  (forall x, sync_latitude b = Some x -> (inject_Z (-90) <= x <= inject_Z 90)%Q) /\
  (forall x, sync_longitude b = Some x -> (inject_Z (-180) <= x <= inject_Z 180)%Q) /\
  (exists ts, sync_timestamp b = Some ts /\ 0 <= ts).

(** A handler body that awaits only statements of one kind. *)
Inductive awaits_only (Q : forall A : Type, dbcall A -> Prop) {R : Type}
    : handler R -> Prop :=
| awaits_return (r : R) : awaits_only Q (Return r)
| awaits_await {A : Type} (c : dbcall A) (k : A -> handler R) :
    Q A c -> (forall a, awaits_only Q (k a)) -> awaits_only Q (Await c k).

(** The statements that only read. *)
Definition reads (A : Type) (c : dbcall A) : Prop :=
  forall now db, exists a, perform c now db = Some (a, db).

(** A handler body all of whose [return]s satisfy [P]. *)
Inductive returns_only {R : Type} (P : R -> Prop) : handler R -> Prop :=
| returns_return (r : R) : P r -> returns_only P (Return r)
| returns_await {A : Type} (c : dbcall A) (k : A -> handler R) :
    (forall a, returns_only P (k a)) -> returns_only P (Await c k).

Definition is_delete (c : api_call) : bool :=
  match c with
  | call_delete _ _ _ => true
  | _ => false
  end.

(** The device_id a call is about, when it names one. *)
Definition target (c : api_call) : option string :=
  match c with
  | call_register _ _ b => reg_device_id b
  | call_sync _ _ b => sync_device_id b
  | call_heartbeat _ _ d => d
  | call_delete _ _ deviceId => Some deviceId
  | call_list _ _ _ => None
  | call_details _ _ _ _ => None
  end.

(** The device_id bound in the statements that write. *)
Definition aimed_at (t : option string) (A : Type) (c : dbcall A) : Prop :=
  match c with
  | update_device _ _ _ _ d => d = t
  | insert_device d _ _ _ _ => d = t
  | insert_device_log d _ _ _ _ _ _ _ => d = t
  | update_last_seen_active d => d = t
  | update_last_seen d => d = t
  | delete_device d => d = t
  | _ => True
  end.

(** The statements other than the DELETE. *)
Definition not_a_delete (A : Type) (c : dbcall A) : Prop :=
  match c with
  | delete_device _ => False
  | _ => True
  end.

(** The statements other than the DELETE and the INSERT of a record. *)
Definition leaves_the_log (A : Type) (c : dbcall A) : Prop :=
  match c with
  | delete_device _ => False
  | insert_device_log _ _ _ _ _ _ _ _ => False
  | _ => True
  end.

(** What identifies a row for good: its id, its device_id, and when it
    was first seen and created. *)
Definition identity (r : device) : Z * string * datetime * datetime :=
  (id r, device_id r, first_seen r, created_at r).

(** The records of one device_id. *)
Definition device_records (d : string) (db : database) : list device_log :=
  filter (fun l => String.eqb (log_device_id l) d) (device_logs db).

(** Row ids across calls: the counter does not go back, ids stay in
    sequence, and a row found afterwards is a row that was there, with its
    id and device_id, or has an id above the counter of before. *)
Definition row_ids_kept (db db' : database) : Prop :=
  devices_seq db <= devices_seq db' /\
  (ids_in_sequence db -> ids_in_sequence db') /\
  (forall r', In r' (devices db') ->
     (exists r, In r (devices db) /\ id r = id r' /\ device_id r = device_id r') \/
     devices_seq db < id r').

Definition all_active (db : database) : Prop :=
  Forall (fun r => is_active r = true) (devices db).

(** The body, the catch answer, the clock value and the storage
    behaviour of a call. *)
Definition body_of (c : api_call) : handler response :=
  match c with
  | call_register _ _ b => registerDevice_try b
  | call_sync now _ b => syncDeviceData_try now b
  | call_heartbeat now _ d => heartbeat_try now d
  | call_delete _ _ deviceId => deleteDevice_try deviceId
  | call_list _ _ q => getAllDevices_try q
  | call_details _ _ deviceId q => getDeviceDetails_try deviceId q
  end.

Definition clock_of (c : api_call) : datetime :=
  match c with
  | call_register now _ _ | call_sync now _ _ | call_heartbeat now _ _
  | call_delete now _ _ | call_list now _ _ | call_details now _ _ _ => now
  end.

Definition faults_of (c : api_call) : list bool :=
  match c with
  | call_register _ f _ | call_sync _ f _ | call_heartbeat _ f _
  | call_delete _ f _ | call_list _ f _ | call_details _ f _ _ => f
  end.

(** Two texts that are equal up to ASCII case. *)
Fixpoint same_nocase (s t : string) : bool :=
  match s, t with
  | EmptyString, EmptyString => true
  | String c s', String d t' => eq_nocase c d && same_nocase s' t'
  | _, _ => false
  end.

(** A text without the LIKE wildcards [%] and [_]. *)
Fixpoint plain (s : string) : bool :=
  match s with
  | EmptyString => true
  | String c s' => negb (Ascii.eqb c "%") && negb (Ascii.eqb c "_") && plain s'
  end.

(** The devices of the pages 1 to [k] of a list query, in page order. *)
Definition pages_upto (k : nat) (limit : Z) (search status : option string)
    (now : datetime) (db : database) : list device :=
  List.concat
    (map (fun p =>
            returned_devices
              (fst (getAllDevices now []
                      (mkQuery (Some (Z.of_nat p)) (Some limit) search status) db)))
         (seq 1 k)).

(** [s] occurs in [t], up to ASCII case. *)
Definition occurs_nocase (s t : string) : Prop :=
  exists pre mid post,
    t = (pre ++ mid ++ post)%string /\ same_nocase s mid = true.

(** ** Statistics (deviceController.js [getDeviceStats]; routes/dashboard.js
       [getStats], [getRecentDevices]) *)

(** The five columns [getRecentDevices] selects. *)
Record recent_device := mkRecent {
  rd_device_id : string;
  rd_model : string;
  rd_manufacturer : string;
  rd_last_seen : datetime;
  rd_is_active : bool
}.

Definition recent_columns (r : device) : recent_device :=
  {| rd_device_id := device_id r; rd_model := model r;
     rd_manufacturer := manufacturer r; rd_last_seen := last_seen r;
     rd_is_active := is_active r |}.

(** The statements of the statistics; all of them read. *)
Inductive stat_query : Type -> Type :=
  (* get: SELECT COUNT( * ) as count FROM devices *)
| count_all_devices : stat_query Z
  (* get: SELECT COUNT( * ) as count FROM devices
     WHERE last_seen >= datetime("now", "-24 hours") *)
| count_devices_seen_24h : stat_query Z
  (* get: SELECT COUNT( * ) as count FROM device_logs *)
| count_all_logs : stat_query Z
  (* get: SELECT COUNT( * ) as count FROM device_logs
     WHERE created_at >= datetime("now", "-24 hours") *)
| count_logs_created_24h : stat_query Z
  (* all: SELECT manufacturer, COUNT( * ) as count FROM devices
     GROUP BY manufacturer ORDER BY count DESC LIMIT 10 *)
| count_by_manufacturer : stat_query (list (string * Z))
  (* get: SELECT COUNT( * ) as count FROM device_logs
     WHERE DATE(created_at) = DATE("now") *)
| count_logs_today : stat_query Z
  (* get: SELECT COUNT( * ) as count FROM devices
     WHERE DATE(created_at) = DATE("now") *)
| count_devices_today : stat_query Z
  (* all: SELECT device_id, model, manufacturer, last_seen, is_active
     FROM devices ORDER BY last_seen DESC LIMIT 10 *)
| select_recent_devices : stat_query (list recent_device).

(** [t >= datetime("now", "-24 hours")] *)
Definition within_24h (now t : datetime) : bool := now - 86400 <=? t.

(** [DATE(t) = DATE("now")]: the same day, a day being 86400 seconds. *)
Definition same_day (now t : datetime) : bool := t / 86400 =? now / 86400.

(** The number of rows of a group. *)
Definition group_size (key : string) (keys : list string) : Z :=
  count (filter (String.eqb key) keys).

(** [GROUP BY key] with [COUNT( * )]: one row for each key that occurs,
    with the number of its occurrences. *)
Definition group_count (keys : list string) : list (string * Z) :=
  map (fun k => (k, group_size k keys)) (nodup string_dec keys).

Definition answer {A : Type} (q : stat_query A) (now : datetime) (db : database) : A :=
  match q in stat_query T return T with
  | count_all_devices => count (devices db)
  | count_devices_seen_24h =>
      count (filter (fun r => within_24h now (last_seen r)) (devices db))
  | count_all_logs => count (device_logs db)
  | count_logs_created_24h =>
      count (filter (fun l => within_24h now (log_created_at l)) (device_logs db))
  | count_by_manufacturer =>
      limit_offset 10 0
        (order_by_desc snd (group_count (map manufacturer (devices db))))
  | count_logs_today =>
      count (filter (fun l => same_day now (log_created_at l)) (device_logs db))
  | count_devices_today =>
      count (filter (fun r => same_day now (created_at r)) (devices db))
  | select_recent_devices =>
      map recent_columns (limit_offset 10 0 (order_by_desc last_seen (devices db)))
  end.

(** A function body that awaits reading statements only. *)
Inductive reader (R : Type) : Type :=
| Result (r : R)
| Query {A : Type} (q : stat_query A) (k : A -> reader R).

Arguments Result {R} r.
Arguments Query {R A} q k.

(** Running it: [None] when the storage failed under a statement. *)
Fixpoint read {R : Type} (h : reader R) (now : datetime) (faults : list bool)
    (db : database) : option R :=
  match h with
  | Result r => Some r
  | Query q k =>
      match faults with
      | true :: _ => None
      | _ => read (k (answer q now db)) now (tl faults) db
      end
  end.

(** [data] of the statistics answer. *)
Record device_stats := mkStats {
  total_devices : Z;
  active_devices : Z;
  total_logs : Z;
  recent_logs : Z;
  devices_by_manufacturer : list (string * Z)
}.

(** The [try] block of [getDeviceStats]. *)
Definition getDeviceStats_try : reader device_stats :=
  Query count_all_devices (fun totalDevices =>
  Query count_devices_seen_24h (fun activeDevices =>
  Query count_all_logs (fun totalLogs =>
  Query count_logs_created_24h (fun recentLogs =>
  Query count_by_manufacturer (fun devicesByManufacturer =>
  Result {| total_devices := totalDevices; active_devices := activeDevices;
            total_logs := totalLogs; recent_logs := recentLogs;
            devices_by_manufacturer := devicesByManufacturer |}))))).

(** [getDeviceStats]: 200 with the data, or 500 "Internal server error". *)
Definition getDeviceStats (now : datetime) (faults : list bool) (db : database)
    : Z * option device_stats :=
  match read getDeviceStats_try now faults db with
  | Some s => (200, Some s)
  | None => (500, None)
  end.

(** What the dashboard's [getStats] returns. *)
Record dashboard_stats := mkDashboardStats {
  totalDevices : Z;
  activeDevices : Z;
  logsToday : Z;
  newDevicesToday : Z
}.

Definition getStats_try : reader dashboard_stats :=
  Query count_all_devices (fun total =>
  Query count_devices_seen_24h (fun active =>
  Query count_logs_today (fun logs =>
  Query count_devices_today (fun new =>
  Result {| totalDevices := total; activeDevices := active;
            logsToday := logs; newDevicesToday := new |})))).

(** [getStats]: on an error it returns zeros. *)
Definition getStats (now : datetime) (faults : list bool) (db : database)
    : dashboard_stats :=
  match read getStats_try now faults db with
  | Some s => s
  | None => {| totalDevices := 0; activeDevices := 0;
               logsToday := 0; newDevicesToday := 0 |}
  end.

(** [getRecentDevices]: on an error it returns the empty list. *)
Definition getRecentDevices (now : datetime) (faults : list bool) (db : database)
    : list recent_device :=
  match read (Query select_recent_devices (fun devices => Result devices))
          now faults db with
  | Some l => l
  | None => []
  end.

(** ** Operator accounts (config/database.js [createDefaultAdmin];
       middleware/auth.js [login], [requireAuth], [optionalAuth]) *)

(** [CREATE TABLE admin_users] *)
Record admin_user := mkAdmin {
  au_id : Z;                        (* INTEGER PRIMARY KEY AUTOINCREMENT *)
  username : string;                (* TEXT UNIQUE NOT NULL *)
  password_hash : string;           (* TEXT NOT NULL *)
  email : option string;            (* TEXT *)
  au_is_active : bool;              (* BOOLEAN DEFAULT 1 *)
  last_login : option datetime;     (* DATETIME *)
  au_created_at : datetime;         (* DEFAULT CURRENT_TIMESTAMP *)
  au_updated_at : datetime          (* DEFAULT CURRENT_TIMESTAMP *)
}.

Record admin_table := mkAdminTable {
  admin_users : list admin_user;
  admin_users_seq : Z
}.

(** [SELECT ... FROM admin_users WHERE username = ?] *)
Definition admin_by_username (name : option string) (t : admin_table)
    : option admin_user :=
  find (fun u => sql_eq (username u) name) (admin_users t).

(** [SELECT ... FROM admin_users WHERE id = ?] *)
Definition admin_by_id (i : option Z) (t : admin_table) : option admin_user :=
  find (fun u => match i with Some n => au_id u =? n | None => false end)
       (admin_users t).

(** [UPDATE admin_users SET last_login = CURRENT_TIMESTAMP WHERE id = ?] *)
Definition touch_last_login (now : datetime) (i : Z) (t : admin_table)
    : admin_table :=
  {| admin_users :=
       map (fun u =>
              if au_id u =? i
              then {| au_id := au_id u; username := username u;
                      password_hash := password_hash u; email := email u;
                      au_is_active := au_is_active u; last_login := Some now;
                      au_created_at := au_created_at u;
                      au_updated_at := au_updated_at u |}
              else u)
           (admin_users t);
     admin_users_seq := admin_users_seq t |}.

(** [INSERT INTO admin_users (username, password_hash) VALUES (?, ?)];
    [None] when UNIQUE (username) rejects it. *)
Definition insert_admin (now : datetime) (name hash : string) (t : admin_table)
    : option admin_table :=
  if existsb (fun u => String.eqb (username u) name) (admin_users t) then None
  else
    let n := admin_users_seq t + 1 in
    Some {| admin_users := admin_users t ++
              [ {| au_id := n; username := name; password_hash := hash;
                   email := None; au_is_active := true; last_login := None;
                   au_created_at := now; au_updated_at := now |} ];
            admin_users_seq := n |}.

(** [s.replace(pat, rep)] with a text pattern: the first occurrence. *)
Fixpoint drop (n : nat) (s : string) : string :=
  match n, s with
  | S n', String _ s' => drop n' s'
  | _, _ => s
  end.

Fixpoint replace_first (pat rep s : string) : string :=
  if String.prefix pat s then (rep ++ drop (String.length pat) s)%string
  else
    match s with
    | EmptyString => EmptyString
    | String c s' => String c (replace_first pat rep s')
    end.

(** What [jwt.verify] does with a token: it returns the payload, whose
    [id] may be missing, or throws an error of one of the two names the
    middleware looks for, or another error. *)
Inductive jwt_outcome :=
| jwt_payload (id : option Z)
| JsonWebTokenError
| TokenExpiredError
| jwt_other_error.

(** The answer of [login]. *)
Record login_reply := mkLoginReply {
  lr_status : Z;
  lr_success : bool;
  lr_message : string;
  lr_errors : list string;                 (* errors: errors.array() *)
  lr_token : option string;                (* data.token *)
  lr_user : option (Z * string)            (* data.user: { id, username } *)
}.

Definition login_refused (code : Z) (msg : string) : login_reply :=
  {| lr_status := code; lr_success := false; lr_message := msg;
     lr_errors := []; lr_token := None; lr_user := None |}.

(** What [requireAuth] does: it sets [req.user] and goes on, or answers. *)
Inductive auth_result :=
| authenticated (user : admin_user)
| refused (code : Z) (msg : string).

Section Crypto.

(** The two libraries, as the code uses them: [bcrypt.compare (password,
    hash)], [bcrypt.hash (password, 10)],
    [jwt.sign ({ id, username }, secret, { expiresIn: '24h' })] at a clock
    value, and [jwt.verify (token, secret)] at a clock value. *)
Variable bcrypt_compare : string -> string -> bool.
Variable bcrypt_hash : string -> string.
Variable jwt_sign : Z -> string -> datetime -> string.
Variable jwt_verify : string -> datetime -> jwt_outcome.

(** [login]: the chain of POST /login asks for a non-empty username and
    password. *)
Definition login (now : datetime) (faults : list bool)
    (name password : option string) (t : admin_table)
    : login_reply * admin_table :=
  match notEmpty name "Username is required" ++
        notEmpty password "Password is required" with
  | (_ :: _) as errors =>
      ({| lr_status := 400; lr_success := false;
          lr_message := "Validation failed"; lr_errors := errors;
          lr_token := None; lr_user := None |}, t)
  | [] =>
      if nth 0 faults false then (login_refused 500 "Internal server error", t)
      else
        match admin_by_username name t with
        | None => (login_refused 401 "Invalid credentials", t)
        | Some user =>
            if negb (au_is_active user)
            then (login_refused 401 "Account is disabled", t)
            else if negb (bcrypt_compare (or_default password "")
                            (password_hash user))
            then (login_refused 401 "Invalid credentials", t)
            else
              let token := jwt_sign (au_id user) (username user) now in
              if nth 1 faults false
              then (login_refused 500 "Internal server error", t)
              else
                ({| lr_status := 200; lr_success := true;
                    lr_message := "Login successful"; lr_errors := [];
                    lr_token := Some token;
                    lr_user := Some (au_id user, username user) |},
                 touch_last_login now (au_id user) t)
        end
  end.

(** The token of a request: [authorization] is the Authorization header,
    [cookie] is [req.cookies?.token] and [query] is [req.query.token]. *)
Definition bearer (authorization : option string) : option string :=
  option_map (replace_first "Bearer " "") authorization.

Definition checked_user (now : datetime) (faults : list bool) (token : string)
    (t : admin_table) : auth_result :=
  match jwt_verify token now with
  | jwt_payload i =>
      if hd false faults then refused 500 "Internal server error"
      else
        match admin_by_id i t with
        | Some user =>
            if au_is_active user then authenticated user
            else refused 401 "Invalid or expired token"
        | None => refused 401 "Invalid or expired token"
        end
  | JsonWebTokenError => refused 401 "Invalid token"
  | TokenExpiredError => refused 401 "Token expired"
  | jwt_other_error => refused 500 "Internal server error"
  end.

(** [requireAuth] *)
Definition requireAuth (now : datetime) (faults : list bool)
    (authorization cookie query : option string) (t : admin_table)
    : auth_result :=
  let token := js_or (js_or (bearer authorization) cookie) query in
  if negb (truthy token) then refused 401 "Authentication required"
  else checked_user now faults (or_default token "") t.

(** [optionalAuth]: [req.user] when it is set; every error is ignored. *)
Definition optionalAuth (now : datetime) (faults : list bool)
    (authorization cookie : option string) (t : admin_table)
    : option admin_user :=
  let token := js_or (bearer authorization) cookie in
  if truthy token then
    match checked_user now faults (or_default token "") t with
    | authenticated user => Some user
    | refused _ _ => None
    end
  else None.

(** [createDefaultAdmin]: [ADMIN_USERNAME] and [ADMIN_PASSWORD] are the
    environment values; every error is logged and swallowed. *)
Definition createDefaultAdmin (now : datetime) (faults : list bool)
    (ADMIN_USERNAME ADMIN_PASSWORD : option string) (t : admin_table)
    : admin_table :=
  let name := or_default (js_or ADMIN_USERNAME (Some "admin")) "admin" in
  let password := or_default (js_or ADMIN_PASSWORD (Some "admin123")) "admin123" in
  if nth 0 faults false then t
  else
    match admin_by_username (Some name) t with
    | Some _ => t
    | None =>
        let passwordHash := bcrypt_hash password in
        if nth 1 faults false then t
        else
          match insert_admin now name passwordHash t with
          | Some t' => t'
          | None => t
          end
    end.

End Crypto.

(** * Properties *)

(** ** Looking a device up *)

Lemma select_none (d : option string) (db : database) :
  exists_device d db = false ->
  find (fun r => sql_eq r.(device_id) d) db.(devices) = None.
Proof.
  unfold exists_device. induction db.(devices) as [|r rs IH]; simpl; intro H.
  - reflexivity.
  - destruct (sql_eq (device_id r) d); [discriminate | auto].
Qed.

Lemma select_some (d : option string) (db : database) :
  exists_device d db = true ->
  exists r, find (fun r => sql_eq r.(device_id) d) db.(devices) = Some r.
Proof.
  unfold exists_device. induction db.(devices) as [|r rs IH]; simpl; intro H.
  - discriminate.
  - destruct (sql_eq (device_id r) d); [eauto | auto].
Qed.

Lemma perform_select_none (d : option string) now (db : database) :
  exists_device d db = false ->
  perform (select_device_id d) now db = Some (None, db).
Proof. intro H. unfold perform. now rewrite select_none. Qed.

Lemma perform_select_some (d : option string) now (db : database) :
  exists_device d db = true ->
  exists n, perform (select_device_id d) now db = Some (Some n, db).
Proof.
  intro H. destruct (select_some _ _ H) as [r Hr].
  exists r.(id). unfold perform. now rewrite Hr.
Qed.

(** With no storage failure pending, an [await] is the statement followed
    by the rest of the body. *)
Lemma run_await {R A : Type} (c : dbcall A) (k : A -> handler R) now db :
  run (Await c k) now [] db =
  match perform c now db with
  | Some (a, db') => run (k a) now [] db'
  | None => (None, db)
  end.
Proof. reflexivity. Qed.

Lemma nonempty_neqb (s : string) : s <> "" -> String.eqb s "" = false.
Proof. intro H. now apply String.eqb_neq. Qed.

Lemma registration_valid (d m mf : string) (os app : option string) :
  d <> "" -> m <> "" -> mf <> "" ->
  deviceRegistrationValidation (mkRegister (Some d) (Some m) (Some mf) os app) = [].
Proof.
  intros Hd Hm Hmf. unfold deviceRegistrationValidation, notEmpty. simpl.
  now rewrite !nonempty_neqb.
Qed.

(** A row of an unselected device is not touched by an UPDATE. *)
Lemma map_unselected (d : option string) (f : device -> device) (rs : list device) :
  existsb (fun r => sql_eq r.(device_id) d) rs = false ->
  map (fun r => if sql_eq r.(device_id) d then f r else r) rs = rs.
Proof.
  induction rs as [|r rs IH]; simpl; intro H; [reflexivity|].
  destruct (sql_eq (device_id r) d); [discriminate|].
  now rewrite IH.
Qed.

Lemma registerDevice_insert now (d m mf : string) (os app : option string) db :
  d <> "" -> m <> "" -> mf <> "" ->
  exists_device (Some d) db = false ->
  registerDevice now [] (mkRegister (Some d) (Some m) (Some mf) os app) db =
    (ok 201 (Some "Device registered successfully")
       (registration (Some d) "registered"),
     {| foreign_keys := db.(foreign_keys);
        devices := db.(devices) ++
          [registered_row (db.(devices_seq) + 1) now d m mf os app];
        devices_seq := db.(devices_seq) + 1;
        device_logs := db.(device_logs);
        device_logs_seq := db.(device_logs_seq) |}).
Proof.
  intros Hd Hm Hmf Hnew.
  unfold registerDevice, try_catch, registerDevice_try.
  rewrite registration_valid by assumption.
  rewrite run_await, (perform_select_none _ _ _ Hnew), run_await.
  cbn [perform reg_device_id reg_model reg_manufacturer].
  rewrite Hnew. reflexivity.
Qed.

Lemma registerDevice_update now (d m mf : string) (os app : option string) db :
  d <> "" -> m <> "" -> mf <> "" ->
  exists_device (Some d) db = true ->
  registerDevice now [] (mkRegister (Some d) (Some m) (Some mf) os app) db =
    (ok 200 (Some "Device updated successfully")
       (registration (Some d) "updated"),
     update_where (Some d) (reregistered_row now m mf os app) db).
Proof.
  intros Hd Hm Hmf Hold.
  unfold registerDevice, try_catch, registerDevice_try.
  rewrite registration_valid by assumption.
  destruct (perform_select_some _ now _ Hold) as [n Hn].
  cbv zeta. cbn [reg_device_id reg_model reg_manufacturer].
  rewrite run_await, Hn. reflexivity.
Qed.

Lemma exists_device_app (d : option string) (rs rs' : list device) :
  existsb (fun r => sql_eq r.(device_id) d) (rs ++ rs') =
  existsb (fun r => sql_eq r.(device_id) d) rs ||
  existsb (fun r => sql_eq r.(device_id) d) rs'.
Proof. apply existsb_app. Qed.

(** ** C1: registration *)

(** C1, as the code has it.  A valid registration (non-empty device_id,
    model and manufacturer) of a device_id that has no row appends exactly
    one row, with first_seen = last_seen = now and is_active = true, and
    answers 201 with status [registered]; a registration of the same
    device_id that follows answers 200 with status [updated] and the row
    keeps the first_seen of the first registration while last_seen moves to
    the new clock value; and on any database [db0] where the device_id has a
    row, a valid registration answers 200 with status [updated], rewrites
    model, manufacturer, os_version and app_version from the request, sets
    last_seen = now and is_active = true and keeps first_seen.  No
    registration touches the telemetry log. *)
Theorem registerDevice_registered_then_updated
    (now now' : datetime) (d m mf m' mf' : string)
    (os app os' app' : option string) (db db0 : database) :
  d <> "" -> m <> "" -> mf <> "" -> m' <> "" -> mf' <> "" ->
  exists_device (Some d) db = false ->
  exists_device (Some d) db0 = true ->
  let b := mkRegister (Some d) (Some m) (Some mf) os app in
  let b' := mkRegister (Some d) (Some m') (Some mf') os' app' in
  let first := registerDevice now [] b db in
  let second := registerDevice now' [] b' (snd first) in
  let again := registerDevice now [] b db0 in
  (fst first = ok 201 (Some "Device registered successfully")
                 (registration (Some d) "registered") /\
   devices (snd first) = devices db ++
     [registered_row (devices_seq db + 1) now d m mf os app] /\
   device_logs (snd first) = device_logs db)
  /\
  (fst second = ok 200 (Some "Device updated successfully")
                  (registration (Some d) "updated") /\
   devices (snd second) = devices db ++
     [reregistered_row now' m' mf' os' app'
        (registered_row (devices_seq db + 1) now d m mf os app)] /\
   device_logs (snd second) = device_logs db)
  /\
  (fst again = ok 200 (Some "Device updated successfully")
                 (registration (Some d) "updated") /\
   devices (snd again) =
     map (fun r => if String.eqb (device_id r) d
                   then reregistered_row now m mf os app r else r)
         (devices db0) /\
   device_logs (snd again) = device_logs db0).
Proof.
  intros Hd Hm Hmf Hm' Hmf' Hnew Hold b b' first second again.
  subst second again first b b'.
  rewrite registerDevice_insert by assumption.
  rewrite (registerDevice_update now) by assumption.
  rewrite registerDevice_update; try assumption.
  - repeat split. cbn [snd update_where set_devices devices].
    rewrite map_app. cbn [map sql_eq registered_row device_id].
    rewrite String.eqb_refl.
    rewrite (map_unselected (Some d)); [reflexivity | exact Hnew].
  - unfold exists_device. cbn [snd devices]. rewrite exists_device_app.
    cbn [existsb registered_row device_id sql_eq].
    rewrite String.eqb_refl. now rewrite orb_true_r.
Qed.

(** The theorem at work: "dev-1" is registered on the empty database and
    registered again later. *)
Lemma registerDevice_registered_then_updated_witness :
  let b := mkRegister (Some "dev-1") (Some "Pixel 6") (Some "Google") None None in
  let first := registerDevice 10 [] b initializeSQLite in
  let second := registerDevice 20 [] b (snd first) in
  status (fst first) = 201 /\ status (fst second) = 200 /\
  map first_seen (devices (snd second)) = [10] /\
  map last_seen (devices (snd second)) = [20].
Proof.
  pose proof (registerDevice_registered_then_updated 10 20
                "dev-1" "Pixel 6" "Google" "Pixel 6" "Google"
                None None None None initializeSQLite
                (snd (registerDevice 10 []
                        (mkRegister (Some "dev-1") (Some "Pixel 6")
                           (Some "Google") None None) initializeSQLite))) as H.
  cbv zeta in *.
  destruct H as [(H1 & _) [(H2 & H3 & _) _]];
    try discriminate; try reflexivity.
  rewrite H1, H2, H3. repeat split.
Defined.

(** C1, as the claim words it, fails on the answer's status text: a first
    registration answers [registered], not [created]. *)
Lemma registerDevice_status_is_not_created :
  (fst (registerDevice 10 []
          (mkRegister (Some "dev-1") (Some "Pixel 6") (Some "Google") None None)
          initializeSQLite)).(data)
  <> registration (Some "dev-1") "created".
Proof. vm_compute. discriminate. Qed.

(** ** C10: a repeated registration rewrites all four descriptors *)

(** C10.  When the device_id already has a row, a valid registration
    leaves that row with exactly the request's model, manufacturer,
    os_version and app_version; an os_version or app_version the request
    does not carry ([None]) therefore replaces the stored value by NULL. *)
Theorem registerDevice_overwrites_descriptors
    (now : datetime) (d m mf : string) (os app : option string) (db : database) :
  d <> "" -> m <> "" -> mf <> "" ->
  exists_device (Some d) db = true ->
  let db' := snd (registerDevice now []
                    (mkRegister (Some d) (Some m) (Some mf) os app) db) in
  (exists r, In r (devices db') /\ device_id r = d) /\
  (forall r, In r (devices db') -> device_id r = d ->
     model r = m /\ manufacturer r = mf /\
     os_version r = os /\ app_version r = app).
Proof.
  intros Hd Hm Hmf Hold db'. subst db'.
  rewrite registerDevice_update by assumption.
  cbn [snd update_where set_devices devices sql_eq]. split.
  - unfold exists_device in Hold. apply existsb_exists in Hold.
    destruct Hold as (r0 & Hin & Hr0). cbn [sql_eq] in Hr0.
    exists (reregistered_row now m mf os app r0). split.
    + apply in_map_iff. exists r0. now rewrite Hr0.
    + now apply String.eqb_eq in Hr0.
  - intros r Hin Hr. apply in_map_iff in Hin.
    destruct Hin as (r0 & <- & _).
    destruct (String.eqb_spec (device_id r0) d) as [E|E].
    + repeat split.
    + contradiction.
Qed.

(** A device stored with os_version "12" and app_version "1.0" registers
    again without either field. *)
Lemma registerDevice_overwrites_descriptors_witness :
  let db := snd (registerDevice 10 []
                   (mkRegister (Some "dev-1") (Some "Pixel 6") (Some "Google")
                      (Some "12") (Some "1.0")) initializeSQLite) in
  let db' := snd (registerDevice 20 []
                    (mkRegister (Some "dev-1") (Some "Pixel 6") (Some "Google")
                       None None) db) in
  map os_version (devices db) = [Some "12"] /\
  forall r, In r (devices db') -> device_id r = "dev-1" ->
    os_version r = None /\ app_version r = None.
Proof.
  intros db db'. split; [reflexivity|].
  intros r Hin Hr.
  destruct (registerDevice_overwrites_descriptors 20 "dev-1" "Pixel 6" "Google"
              None None db) as [_ H]; try discriminate; try reflexivity.
  destruct (H r Hin Hr) as (_ & _ & Hos & Happ). now split.
Defined.

(** ** C2: sync of an unknown device *)

Lemma run_await_faults {R A : Type} (c : dbcall A) (k : A -> handler R)
    now faults db :
  hd false faults = false ->
  run (Await c k) now faults db =
  match perform c now db with
  | Some (a, db') => run (k a) now (tl faults) db'
  | None => (None, db)
  end.
Proof. destruct faults as [|[] ?]; simpl; [reflexivity | discriminate | reflexivity]. Qed.

Lemma run_await_fault {R A : Type} (c : dbcall A) (k : A -> handler R)
    now faults db :
  hd false faults = true ->
  run (Await c k) now faults db = (None, db).
Proof. destruct faults as [|[] ?]; simpl; [discriminate | reflexivity | discriminate]. Qed.

(** C2.  A sync call for a device_id that has no row leaves the database
    as it was, whatever the payload and whatever the storage does: no
    telemetry record is written and no device is created.  When the payload
    is valid and the storage answers the lookup, the answer is 404 with
    error_code DEVICE_NOT_FOUND. *)
Theorem syncDeviceData_unknown_device
    (now : datetime) (faults : list bool) (b : sync_body) (db : database) :
  exists_device (sync_device_id b) db = false ->
  snd (syncDeviceData now faults b db) = db /\
  (deviceSyncValidation b = [] -> hd false faults = false ->
   fst (syncDeviceData now faults b db) =
     {| status := 404; success := false;
        message := Some "Device not found. Please register first.";
        error_code := Some "DEVICE_NOT_FOUND"; data := no_data |}).
Proof.
  intro Hnew. unfold syncDeviceData, try_catch, syncDeviceData_try.
  destruct (deviceSyncValidation b) as [|e es].
  - cbv zeta. destruct (hd false faults) eqn:Hf.
    + rewrite run_await_fault by assumption. split; [reflexivity|].
      intros _ Habs. discriminate.
    + rewrite run_await_faults by assumption.
      rewrite (perform_select_none _ _ _ Hnew). split; reflexivity.
  - split; [reflexivity|]. intro Habs. discriminate.
Qed.

(** A valid sync for "dev-x" on the empty database. *)
Lemma syncDeviceData_unknown_device_witness :
  let b := mkSync (Some "dev-x") None None None None None None (Some 1000) in
  syncDeviceData 30 [] b initializeSQLite =
    (not_found "Device not found. Please register first."
       (Some "DEVICE_NOT_FOUND"), initializeSQLite).
Proof.
  intro b.
  destruct (syncDeviceData_unknown_device 30 [] b initializeSQLite eq_refl)
    as [Hdb Hres].
  specialize (Hres eq_refl eq_refl).
  destruct (syncDeviceData 30 [] b initializeSQLite) as [res db'].
  simpl in Hdb, Hres. now subst.
Defined.

(** ** C6: heartbeat *)

Lemma heartbeat_steps now faults d db :
  heartbeat now faults d db =
    if hd false faults then (internal_error None, db)
    else (ok 200 (Some "Heartbeat received") (heartbeat_receipt (Date_now now)),
          update_where d (with_last_seen now) db).
Proof.
  unfold heartbeat, try_catch, heartbeat_try.
  destruct (hd false faults) eqn:Hf.
  - now rewrite run_await_fault.
  - now rewrite run_await_faults.
Qed.

Lemma update_where_rows (d : option string) (f : device -> device)
    (P : device -> device -> Prop) (rs : list device) :
  (forall r, P r r) -> (forall r, sql_eq (device_id r) d = true -> P r (f r)) ->
  Forall2 P rs (map (fun r => if sql_eq (device_id r) d then f r else r) rs).
Proof.
  intros Hrefl Hf. induction rs as [|r rs IH]; simpl; constructor; auto.
  destruct (sql_eq (device_id r) d) eqn:E; auto.
Qed.

Lemma Forall2_same {A : Type} (P : A -> A -> Prop) (l : list A) :
  (forall x, P x x) -> Forall2 P l l.
Proof. intro H. induction l; constructor; auto. Qed.

Lemma update_where_unknown (d : option string) (f : device -> device) db :
  exists_device d db = false -> update_where d f db = db.
Proof.
  intro H. unfold update_where, set_devices.
  rewrite map_unselected by exact H. now destruct db.
Qed.

(** C6.  A heartbeat writes no telemetry record and creates or removes no
    device row: row by row, the devices table after the call is the table
    before it, where a row can differ in last_seen only, and a row of
    another device_id does not differ at all.  For a device_id without a
    row the database is unchanged (and the answer is still 200 when the
    storage works: a silent no-op).  When the storage works, the answer is
    200 and every row of the device_id has last_seen = now. *)
Theorem heartbeat_changes_last_seen_only
    (now : datetime) (faults : list bool) (d : option string) (db : database) :
  let out := heartbeat now faults d db in
  device_logs (snd out) = device_logs db /\
  snd out = set_devices db (devices (snd out)) /\
  Forall2 (fun r r' => r' = with_last_seen (last_seen r') r /\
                       (sql_eq (device_id r) d = false -> r' = r))
          (devices db) (devices (snd out)) /\
  (exists_device d db = false -> snd out = db) /\
  (hd false faults = false ->
   fst out = ok 200 (Some "Heartbeat received") (heartbeat_receipt (Date_now now)) /\
   forall r', In r' (devices (snd out)) ->
     sql_eq (device_id r') d = true -> last_seen r' = now).
Proof.
  intro out. subst out. rewrite heartbeat_steps.
  destruct (hd false faults); cbn [fst snd];
    (split; [|split; [|split; [|split]]]).
  - reflexivity.
  - now destruct db.
  - apply Forall2_same. intros [ ]; now split.
  - reflexivity.
  - discriminate.
  - reflexivity.
  - reflexivity.
  - cbn [update_where set_devices devices].
    apply update_where_rows.
    + intros [ ]; now split.
    + intros r Hr. split; [reflexivity|]. intro Habs. congruence.
  - apply update_where_unknown.
  - intros _. split; [reflexivity|].
    intros r' Hin Hr'. cbn [update_where set_devices devices] in Hin.
    apply in_map_iff in Hin. destruct Hin as (r & <- & _).
    destruct (sql_eq (device_id r) d) eqn:E; [reflexivity|].
    congruence.
Qed.

(** A heartbeat of the registered "dev-1" and one of the unknown "dev-x". *)
Lemma heartbeat_changes_last_seen_only_witness :
  let db := snd (registerDevice 10 []
                   (mkRegister (Some "dev-1") (Some "Pixel 6") (Some "Google")
                      None None) initializeSQLite) in
  snd (heartbeat 50 [] (Some "dev-x") db) = db /\
  (forall r', In r' (devices (snd (heartbeat 50 [] (Some "dev-1") db))) ->
     last_seen r' = 50).
Proof.
  intro db. split.
  - now apply (heartbeat_changes_last_seen_only 50 [] (Some "dev-x") db).
  - intros r' Hin.
    destruct (heartbeat_changes_last_seen_only 50 [] (Some "dev-1") db)
      as (_ & _ & _ & _ & H).
    destruct (H eq_refl) as [_ H']. apply H'; [exact Hin|].
    destruct Hin as [<- | []]. reflexivity.
Defined.

(** ** Sync on a registered device: the two writes *)

(** The handler statement by statement: the lookup, the INSERT and the
    UPDATE are three calls, and a failure under one of them leaves what the
    calls before it wrote. *)
Lemma syncDeviceData_steps now faults (b : sync_body) (d : string) (ts : Z) db :
  sync_device_id b = Some d ->
  sync_timestamp b = Some ts ->
  deviceSyncValidation b = [] ->
  exists_device (Some d) db = true ->
  syncDeviceData now faults b db =
    if nth 0 faults false || nth 1 faults false then (sync_failed, db)
    else if nth 2 faults false then (sync_failed, with_log now d b ts db)
    else (sync_completed now d,
          update_where (Some d) (seen_active now) (with_log now d b ts db)).
Proof.
  intros Hd Hts Hval Hold.
  destruct (perform_select_some _ now _ Hold) as [n Hn].
  assert (Hins : perform (insert_device_log (Some d) (sync_battery_level b)
                   (sync_network_status b) (sync_latitude b) (sync_longitude b)
                   (sync_local_ip b) (sync_public_ip b) (Some ts)) now db
                 = Some (tt, with_log now d b ts db)).
  { cbn [perform]. rewrite Hold. now rewrite andb_false_r. }
  unfold syncDeviceData, try_catch, syncDeviceData_try.
  rewrite Hval, Hd, Hts. cbv zeta.
  destruct faults as [|[] [|[] [|[] rest]]]; cbn [run tl nth orb];
    try reflexivity; rewrite Hn; cbn [run tl]; try reflexivity;
    rewrite Hins; reflexivity.
Qed.

Lemma sync_valid_timestamp (b : sync_body) :
  deviceSyncValidation b = [] -> exists ts, sync_timestamp b = Some ts.
Proof.
  unfold deviceSyncValidation. intro H.
  repeat (apply app_eq_nil in H; destruct H as [_ H]).
  unfold isInt_min0 in H. destruct (sync_timestamp b) as [ts|]; [eauto|discriminate].
Qed.

(** ** C3: the two writes of a sync are not one unit *)

(** C3, as the code has it.  For a valid sync call on a registered device:
    when none of its three statements fails, the answer is 200, one record
    is appended and the device's last_seen and is_active are set; when the
    lookup or the INSERT fails, the answer is 500 SYNC_FAILED and the
    database is unchanged; when the INSERT succeeds and the UPDATE fails,
    the answer is 500 SYNC_FAILED, the appended record stays and the devices
    table is unchanged. *)
Theorem syncDeviceData_writes_are_separate
    (now : datetime) (faults : list bool) (b : sync_body) (d : string) (ts : Z)
    (db : database) :
  sync_device_id b = Some d ->
  sync_timestamp b = Some ts ->
  deviceSyncValidation b = [] ->
  exists_device (Some d) db = true ->
  let out := syncDeviceData now faults b db in
  let appended :=
    device_logs (snd out) =
    device_logs db ++ [log_row (device_logs_seq db + 1) now d b ts] in
  let advanced :=
    devices (snd out) =
    map (fun r => if String.eqb (device_id r) d then seen_active now r else r)
        (devices db) in
  match nth 0 faults false, nth 1 faults false, nth 2 faults false with
  | false, false, false => fst out = sync_completed now d /\ appended /\ advanced
  | false, false, true =>
      fst out = sync_failed /\ appended /\ devices (snd out) = devices db
  | _, _, _ => fst out = sync_failed /\ snd out = db
  end.
Proof.
  intros Hd Hts Hval Hold out appended advanced.
  subst appended advanced out.
  rewrite (syncDeviceData_steps now faults b d ts db) by assumption.
  destruct (nth 0 faults false), (nth 1 faults false), (nth 2 faults false);
    cbn [orb fst snd]; repeat split.
Qed.

(** "dev-1" is registered; its sync loses the storage under the UPDATE. *)
Lemma syncDeviceData_writes_are_separate_witness :
  let db := snd (registerDevice 10 []
                   (mkRegister (Some "dev-1") (Some "Pixel 6") (Some "Google")
                      None None) initializeSQLite) in
  let b := mkSync (Some "dev-1") (Some 85) None None None None None (Some 1000) in
  let out := syncDeviceData 30 [false; false; true] b db in
  fst out = sync_failed /\
  device_logs (snd out) = [log_row 1 30 "dev-1" b 1000] /\
  devices (snd out) = devices db.
Proof.
  intros db b out.
  exact (syncDeviceData_writes_are_separate 30 [false; false; true] b "dev-1"
           1000 db eq_refl eq_refl eq_refl eq_refl).
Defined.

(** C3, as the claim words it, fails: in the same call the answer is a
    failure, yet the log of "dev-1" grew by one record while last_seen
    stayed at 10; neither both effects nor none of them is visible. *)
Lemma syncDeviceData_partial_write :
  let db := snd (registerDevice 10 []
                   (mkRegister (Some "dev-1") (Some "Pixel 6") (Some "Google")
                      None None) initializeSQLite) in
  let b := mkSync (Some "dev-1") (Some 85) None None None None None (Some 1000) in
  let out := syncDeviceData 30 [false; false; true] b db in
  let both := log_count "dev-1" (snd out) = log_count "dev-1" db + 1 /\
              map last_seen (devices (snd out)) = [30] in
  let neither := log_count "dev-1" (snd out) = log_count "dev-1" db /\
                 map last_seen (devices (snd out)) = map last_seen (devices db) in
  status (fst out) = 500 /\ ~ (both \/ neither).
Proof.
  vm_compute. split; [reflexivity|].
  intros [[_ H] | [H _]]; discriminate.
Qed.

(** ** C8: N syncs of one device *)

Lemma syncDeviceData_ok now (b : sync_body) (d : string) (ts : Z) db :
  sync_device_id b = Some d ->
  sync_timestamp b = Some ts ->
  deviceSyncValidation b = [] ->
  exists_device (Some d) db = true ->
  syncDeviceData now [] b db =
    (sync_completed now d,
     update_where (Some d) (seen_active now) (with_log now d b ts db)).
Proof. intros. now rewrite (syncDeviceData_steps now [] b d ts db). Qed.

Lemma exists_device_update_where d d' f db :
  (forall r, device_id (f r) = device_id r) ->
  exists_device d (update_where d' f db) = exists_device d db.
Proof.
  intro Hf. unfold exists_device, update_where, set_devices. cbn [devices].
  induction (devices db) as [|r rs IH]; [reflexivity|].
  cbn [map existsb]. rewrite IH. f_equal.
  destruct (sql_eq (device_id r) d'); [now rewrite Hf | reflexivity].
Qed.

Lemma log_count_with_log now d b ts db :
  log_count d (with_log now d b ts db) = log_count d db + 1.
Proof.
  unfold log_count, count, with_log. cbn [device_logs].
  rewrite filter_app, length_app. cbn [filter log_row log_device_id sql_eq].
  rewrite String.eqb_refl. cbn [List.length]. lia.
Qed.

Lemma sync_step_facts now (b : sync_body) (d : string) db :
  sync_device_id b = Some d ->
  deviceSyncValidation b = [] ->
  exists_device (Some d) db = true ->
  let out := syncDeviceData now [] b db in
  fst out = sync_completed now d /\
  exists_device (Some d) (snd out) = true /\
  log_count d (snd out) = log_count d db + 1 /\
  (forall r, In r (devices (snd out)) -> device_id r = d -> last_seen r = now) /\
  (exists l, device_logs (snd out) = device_logs db ++ [l] /\
             Some (timestamp l) = sync_timestamp b /\ log_created_at l = now).
Proof.
  intros Hd Hval Hold out. subst out.
  destruct (sync_valid_timestamp b Hval) as [ts Hts].
  rewrite (syncDeviceData_ok now b d ts db) by assumption.
  cbn [fst snd]. split; [reflexivity|]. split; [|split; [|split]];
    [ | | | eexists; split; [reflexivity | now split] ].
  - rewrite exists_device_update_where by reflexivity. exact Hold.
  - unfold log_count at 1. unfold update_where, set_devices. cbn [device_logs].
    apply (log_count_with_log now d b ts db).
  - intros r Hin Hr. cbn [update_where set_devices devices with_log] in Hin.
    apply in_map_iff in Hin. destruct Hin as (r0 & <- & _).
    destruct (sql_eq (device_id r0) (Some d)) eqn:E; [reflexivity|].
    cbn [sql_eq] in E. apply String.eqb_neq in E. contradiction.
Qed.



(** ** C4: deleting a device *)

Lemma deleteDevice_unknown now (d : string) db :
  exists_device (Some d) db = false ->
  deleteDevice now [] d db = (not_found "Device not found" None, db).
Proof.
  intro Hnew. unfold deleteDevice, try_catch, deleteDevice_try.
  now rewrite run_await, (perform_select_none _ _ _ Hnew).
Qed.

Lemma deleteDevice_known now (d : string) db :
  exists_device (Some d) db = true ->
  deleteDevice now [] d db =
    (ok 200 (Some "Device deleted successfully") no_data, without_device d db).
Proof.
  intro Hold. unfold deleteDevice, try_catch, deleteDevice_try.
  destruct (perform_select_some _ now _ Hold) as [n Hn].
  now rewrite run_await, Hn.
Qed.

Lemma without_device_gone (d : string) db :
  exists_device (Some d) (without_device d db) = false.
Proof.
  unfold exists_device, without_device. cbn [devices sql_eq].
  induction (devices db) as [|r rs IH]; [reflexivity|].
  cbn [filter]. destruct (String.eqb (device_id r) d) eqn:E; cbn [negb]; [exact IH|].
  cbn [existsb]. now rewrite E, IH.
Qed.

Lemma getDeviceDetails_unknown now (d : string) q db :
  exists_device (Some d) db = false ->
  getDeviceDetails now [] d q db = (not_found "Device not found" None, db).
Proof.
  intro Hnew. unfold getDeviceDetails, try_catch, getDeviceDetails_try.
  rewrite run_await. cbn [perform]. now rewrite (select_none _ _ Hnew).
Qed.

(** The part of C4 that holds on every connection: the device row goes,
    a detail query afterwards answers 404, and deleting a device_id
    without a row answers 404 and changes nothing. *)
Lemma deleteDevice_removes_device now now' (d : string) q db :
  (exists_device (Some d) db = true ->
   let out := deleteDevice now [] d db in
   status (fst out) = 200 /\
   exists_device (Some d) (snd out) = false /\
   status (fst (getDeviceDetails now' [] d q (snd out))) = 404) /\
  (exists_device (Some d) db = false ->
   deleteDevice now [] d db = (not_found "Device not found" None, db)).
Proof.
  split; intro H.
  - rewrite deleteDevice_known by assumption. cbn [fst snd].
    rewrite getDeviceDetails_unknown by apply without_device_gone.
    repeat split. apply without_device_gone.
  - now apply deleteDevice_unknown.
Qed.

(** The cascade itself needs a connection that enforces foreign keys: on
    such a connection no record of the deleted device is left. *)
Lemma deleteDevice_cascades_when_enforced now (d : string) db :
  foreign_keys db = true ->
  exists_device (Some d) db = true ->
  log_count d (snd (deleteDevice now [] d db)) = 0.
Proof.
  intros Hfk Hold. rewrite deleteDevice_known by assumption.
  unfold log_count, count, without_device. cbn [snd device_logs sql_eq].
  rewrite Hfk. induction (device_logs db) as [|l ls IH]; [reflexivity|].
  cbn [filter]. destruct (String.eqb (log_device_id l) d) eqn:E; cbn [negb]; [exact IH|].
  cbn [filter]. now rewrite E.
Qed.

(** C4 fails on the connection [initializeSQLite] opens.  "dev-1" is
    registered and syncs once; deleting it answers 200 and removes the
    device row, a detail query then answers 404, but the telemetry record
    of "dev-1" is still in device_logs: its count is 1, not 0. *)
Theorem deleteDevice_leaves_telemetry_behind :
  let db0 := snd (registerDevice 10 []
                    (mkRegister (Some "dev-1") (Some "Pixel 6") (Some "Google")
                       None None) initializeSQLite) in
  let db := snd (syncDeviceData 30 []
                   (mkSync (Some "dev-1") (Some 85) None None None None None
                      (Some 1000)) db0) in
  let out := deleteDevice 40 [] "dev-1" db in
  status (fst out) = 200 /\
  devices (snd out) = [] /\
  status (fst (getDeviceDetails 50 [] "dev-1" (mkQuery None None None None)
                 (snd out))) = 404 /\
  log_count "dev-1" db = 1 /\
  log_count "dev-1" (snd out) = 1 /\
  map log_device_id (device_logs (snd out)) = ["dev-1"].
Proof. vm_compute. repeat split. Qed.

(** ** C7: a page of the device list *)

Section OrderByFacts.
Context {A : Type} (key : A -> Z).

Lemma insert_desc_perm (x : A) (l : list A) :
  Permutation (x :: l) (insert_desc key x l).
Proof.
  induction l as [|y l IH]; cbn [insert_desc]; [reflexivity|].
  destruct (key y <=? key x); [reflexivity|].
  rewrite perm_swap. now constructor.
Qed.

Lemma insert_desc_descending (x : A) (l : list A) :
  descending key l -> descending key (insert_desc key x l).
Proof.
  unfold descending. induction 1 as [|y l Hl IH Hy]; cbn [insert_desc].
  - repeat constructor.
  - destruct (Z.leb_spec (key y) (key x)) as [Hle|Hlt].
    + constructor; [now constructor|].
      constructor; [exact Hle|].
      eapply Forall_impl; [|exact Hy]. cbn. intros; lia.
    + constructor; [exact IH|].
      eapply Permutation_Forall; [apply insert_desc_perm|].
      constructor; [lia | exact Hy].
Qed.

Lemma order_by_desc_perm (l : list A) :
  Permutation l (order_by_desc key l).
Proof.
  induction l as [|x l IH]; cbn; [constructor|].
  rewrite <- insert_desc_perm. now constructor.
Qed.

Lemma order_by_desc_descending (l : list A) :
  descending key (order_by_desc key l).
Proof.
  induction l as [|x l IH]; cbn; [constructor|].
  now apply insert_desc_descending.
Qed.
End OrderByFacts.

Lemma run_latest_logs {R : Type} (ds : list device)
    (k : list (device * option latest_log) -> handler R) now db :
  run (await_each (fun dv => select_latest_log (Some (device_id dv))) ds k) now [] db =
  run (k (map (fun dv => (dv, latest_log_of (device_id dv) db)) ds)) now [] db.
Proof.
  revert k. induction ds as [|dv ds IH]; intro k; cbn [await_each map].
  - reflexivity.
  - rewrite run_await. cbn [perform]. now rewrite IH.
Qed.

(** [Math.ceil (total / limit)] for a positive limit is the least number
    of pages of [limit] rows that hold [total] rows. *)
Lemma Math_ceil_div_pos (total limit : Z) :
  0 < limit ->
  exists pages, Math_ceil_div total limit = Some pages /\
                (pages - 1) * limit < total <= pages * limit.
Proof.
  intro Hl. unfold Math_ceil_div.
  destruct (Z.eqb_spec limit 0) as [E|_]; [lia|].
  eexists; split; [reflexivity|].
  pose proof (Z.div_mod (- total) limit ltac:(lia)) as Hdm.
  pose proof (Z.mod_pos_bound (- total) limit Hl) as Hb.
  nia.
Qed.

Lemma getAllDevices_steps now (q : list_query) db :
  let page := or_default (q_page q) 1 in
  let limit := or_default (q_limit q) 50 in
  let rows := matched (or_default (q_search q) "") (or_default (q_status q) "all") db in
  getAllDevices now [] q db =
    (ok 200 None
       (device_page
          (map (fun dv => (dv, latest_log_of (device_id dv) db))
             (limit_offset limit ((page - 1) * limit)
                (order_by_desc last_seen rows)))
          {| pg_page := page; pg_limit := limit; pg_total := count rows;
             pg_pages := Math_ceil_div (count rows) limit |}),
     db).
Proof.
  unfold getAllDevices, try_catch, getAllDevices_try. cbv zeta.
  rewrite run_await. cbn [perform]. rewrite run_await. cbn [perform].
  now rewrite run_latest_logs.
Qed.



(** ** C9: status=active against status=all *)

Lemma matched_active (search : string) (db : database) :
  matched search "active" db = filter is_active (matched search "all" db).
Proof.
  unfold matched, whereClause, where_holds. cbn [like_pattern is_active_is].
  change (String.eqb "active" "all") with false.
  change (String.eqb "all" "all") with true.
  change (String.eqb "active" "active") with true. cbv iota.
  induction (devices db) as [|r rs IH]; [reflexivity|].
  cbn [filter]. rewrite IH, andb_true_r.
  destruct (match (if String.eqb search "" then None
                   else Some ("%" ++ search ++ "%")%string) with
            | Some p => _ | None => true end); cbn [andb filter].
  - now destruct (is_active r).
  - reflexivity.
Qed.

Lemma filter_id_iff {A : Type} (f : A -> bool) (l : list A) :
  filter f l = l <-> forallb f l = true.
Proof.
  split.
  - intro H. rewrite <- H. apply forallb_forall. intros x Hx.
    now apply filter_In in Hx.
  - induction l as [|x l IH]; [reflexivity|]. cbn.
    intro H. apply andb_true_iff in H. destruct H as [-> H]. now rewrite IH.
Qed.

Lemma In_limit_offset {A : Type} (lim off : Z) (l : list A) (x : A) :
  In x (limit_offset lim off l) -> In x l.
Proof.
  unfold limit_offset. intro H.
  assert (Hskip : In x (skipn (Z.to_nat off) l)).
  { destruct (lim <? 0); [exact H|].
    rewrite <- (firstn_skipn (Z.to_nat lim) (skipn (Z.to_nat off) l)).
    apply in_or_app. now left. }
  rewrite <- (firstn_skipn (Z.to_nat off) l). apply in_or_app. now right.
Qed.

Lemma length_filter_le {A : Type} (f : A -> bool) (l : list A) :
  (List.length (filter f l) <= List.length l)%nat.
Proof.
  induction l as [|x l IH]; cbn; [lia|]. destruct (f x); cbn; lia.
Qed.

(** C9, as the code has it.  Under one search filter, the devices matched
    with status=active are the matched devices of status=all that have
    is_active set: a subset, and the same set exactly when no matched
    device is inactive.  Every device an active page returns is matched by
    status=all, and the active total is at most the total of all. *)
Theorem getAllDevices_active_subset_of_all
    (now : datetime) (page limit : option Z) (search : option string)
    (db : database) :
  let active := fst (getAllDevices now [] (mkQuery page limit search (Some "active")) db) in
  let all := fst (getAllDevices now [] (mkQuery page limit search (Some "all")) db) in
  let s := or_default search "" in
  matched s "active" db = filter is_active (matched s "all" db) /\
  incl (matched s "active" db) (matched s "all" db) /\
  (matched s "active" db = matched s "all" db <->
   forallb is_active (matched s "all" db) = true) /\
  incl (returned_devices active) (matched s "all" db) /\
  returned_total active = Some (count (matched s "active" db)) /\
  returned_total all = Some (count (matched s "all" db)) /\
  count (matched s "active" db) <= count (matched s "all" db).
Proof.
  intros active all s. subst active all.
  rewrite !getAllDevices_steps. cbn [fst q_page q_limit q_search q_status or_default].
  fold s. unfold returned_devices, returned_total, ok. cbn [data pg_total].
  assert (Hincl : incl (matched s "active" db) (matched s "all" db)).
  { rewrite matched_active. intros x Hx. now apply filter_In in Hx. }
  split; [apply matched_active|]. split; [exact Hincl|].
  split; [rewrite matched_active; apply filter_id_iff|].
  split; [|split; [reflexivity|split; [reflexivity|]]].
  - intros x Hx. rewrite map_map in Hx. cbn [fst] in Hx. rewrite map_id in Hx.
    apply In_limit_offset in Hx. apply Hincl.
    eapply Permutation_in; [symmetry; apply order_by_desc_perm | exact Hx].
  - unfold count. rewrite matched_active.
    pose proof (length_filter_le is_active (matched s "all" db)). lia.
Qed.

(** C9, as the claim words it, fails: with the one registered device of
    this database, status=active and status=all return the same device, so
    the first set is not a strict subset of the second. *)
Lemma getAllDevices_active_equals_all :
  let db := snd (registerDevice 10 []
                   (mkRegister (Some "dev-1") (Some "Pixel 6") (Some "Google")
                      None None) initializeSQLite) in
  let active := fst (getAllDevices 30 [] (mkQuery None None None (Some "active")) db) in
  let all := fst (getAllDevices 30 [] (mkQuery None None None (Some "all")) db) in
  returned_devices active = returned_devices all /\
  map device_id (returned_devices all) = ["dev-1"].
Proof. vm_compute. split; reflexivity. Qed.

(** Page by page the inclusion does not hold either: with an inactive
    device seen last, the first one-row page of status=all holds that
    device and the first one-row page of status=active holds another. *)
Lemma getAllDevices_active_page_not_in_all_page :
  let row (n : Z) (d : string) (seen : datetime) (a : bool) :=
    {| id := n; device_id := d; model := "Pixel 6"; manufacturer := "Google";
       os_version := None; app_version := None;
       first_seen := 1; last_seen := seen; is_active := a;
       created_at := 1; updated_at := 1 |} in
  let db := {| foreign_keys := false;
               devices := [row 1 "dev-1" 10 true; row 2 "dev-2" 20 false];
               devices_seq := 2; device_logs := []; device_logs_seq := 0 |} in
  let q st := mkQuery (Some 1) (Some 1) None (Some st) in
  map device_id (returned_devices (fst (getAllDevices 30 [] (q "active") db)))
    = ["dev-1"] /\
  map device_id (returned_devices (fst (getAllDevices 30 [] (q "all") db)))
    = ["dev-2"].
Proof. vm_compute. split; reflexivity. Qed.

(** ** C5: two first registrations in flight together *)

Section Race.
Variables (d : string) (Hd : d <> "").

Lemma registerDevice_try_valid (m mf : string) (os app : option string) :
  m <> "" -> mf <> "" ->
  registerDevice_try (mkRegister (Some d) (Some m) (Some mf) os app) =
    (existingDevice <- await (select_device_id (Some d)) ;;
     match existingDevice with
     | Some _ =>
         await (update_device (Some m) (Some mf) os app (Some d)) ;;
         Return (ok 200 (Some "Device updated successfully")
                   (registration (Some d) "updated"))
     | None =>
         await (insert_device (Some d) (Some m) (Some mf) os app) ;;
         Return (ok 201 (Some "Device registered successfully")
                   (registration (Some d) "registered"))
     end).
Proof.
  intros Hm Hmf. unfold registerDevice_try.
  now rewrite registration_valid.
Qed.

Lemma race_select_none now db :
  exists_device (Some d) db = false ->
  perform (select_device_id (Some d)) now db = Some (None, db).
Proof. apply perform_select_none. Qed.

Lemma race_select_some now db :
  exists_device (Some d) db = true ->
  exists n, perform (select_device_id (Some d)) now db = Some (Some n, db).
Proof. apply perform_select_some. Qed.

Lemma race_insert now m mf os app db :
  exists_device (Some d) db = false ->
  perform (insert_device (Some d) (Some m) (Some mf) os app) now db =
    Some (tt, with_device now d m mf os app db).
Proof. intro H. cbn [perform]. now rewrite H. Qed.

Lemma race_insert_rejected now m mf os app db :
  exists_device (Some d) db = true ->
  perform (insert_device (Some d) (Some m) (Some mf) os app) now db = None.
Proof. intro H. cbn [perform]. now rewrite H. Qed.

Lemma race_update now m mf os app db :
  perform (update_device (Some m) (Some mf) os app (Some d)) now db =
    Some (tt, update_where (Some d) (reregistered_row now m mf os app) db).
Proof. reflexivity. Qed.

Lemma exists_with_device now m mf os app db :
  exists_device (Some d) (with_device now d m mf os app db) = true.
Proof.
  unfold exists_device, with_device. cbn [devices].
  rewrite existsb_app. cbn [existsb registered_row device_id sql_eq].
  rewrite String.eqb_refl. now rewrite orb_true_r.
Qed.

Lemma device_rows_with_device now m mf os app db :
  exists_device (Some d) db = false ->
  List.length (device_rows d (with_device now d m mf os app db)) = 1%nat.
Proof.
  intro H. unfold device_rows, with_device. cbn [devices].
  rewrite filter_app, length_app. cbn [filter registered_row device_id].
  rewrite String.eqb_refl. cbn [List.length].
  unfold exists_device in H. cbn [sql_eq] in H.
  induction (devices db) as [|r rs IH]; [reflexivity|].
  cbn [existsb] in H. apply orb_false_iff in H. destruct H as [Hr Hrs].
  cbn [filter]. rewrite Hr. now apply IH.
Qed.

Lemma device_rows_update_where d' f db :
  (forall r, device_id (f r) = device_id r) ->
  List.length (device_rows d (update_where d' f db)) =
  List.length (device_rows d db).
Proof.
  intro Hf. unfold device_rows, update_where, set_devices. cbn [devices].
  induction (devices db) as [|r rs IH]; [reflexivity|].
  cbn [map filter].
  replace (device_id (if sql_eq (device_id r) d' then f r else r))
    with (device_id r) by (destruct (sql_eq (device_id r) d'); now rewrite ?Hf).
  destruct (String.eqb (device_id r) d); cbn [List.length]; now rewrite IH.
Qed.
End Race.

(** Once both tasks have answered, no turn changes anything. *)
Lemma interleave_answered (schedule : list bool) (a b : task) (db : database) :
  answered a <> None -> answered b <> None ->
  interleave schedule a b db = (a, b, db).
Proof.
  intros Ha Hb. induction schedule as [|s rest IH]; [reflexivity|].
  cbn [interleave].
  destruct (answered a) eqn:Ea; [|contradiction].
  destruct (answered b) eqn:Eb; [|contradiction].
  unfold answered in Eb. unfold turn.
  destruct (t_body b); [|discriminate]. exact IH.
Qed.

Ltac race_exists :=
  solve [ assumption
        | apply exists_with_device
        | rewrite exists_device_update_where by reflexivity; race_exists ].

(** One turn of the schedule: unfold it and run the statement it reaches
    on the database as it stands. *)
Ltac race_turn :=
  cbn [interleave answered turn t_body t_now t_catch];
  first
    [ rewrite race_select_none by race_exists
    | match goal with
      | |- context [perform (select_device_id (Some ?d)) ?now ?db] =>
          let n := fresh "n" in
          let Hn := fresh "Hn" in
          destruct (race_select_some d now db ltac:(race_exists)) as [n Hn];
          rewrite Hn; clear Hn
      end
    | rewrite race_insert by race_exists
    | rewrite race_insert_rejected by race_exists
    | rewrite race_update ].

Ltac race_answers :=
  first [ left; reflexivity | right; reflexivity ].




(** * Further properties *)

(** ** The API key *)

Lemma truthy_expected (API_KEY : option string) :
  truthy (js_or API_KEY (Some "rdm-client-key-2024")) = true.
Proof. unfold js_or. destruct (truthy API_KEY) eqn:E; [exact E | reflexivity]. Qed.

Lemma strict_eq_iff (a b : option string) : strict_eq a b = true <-> a = b.
Proof.
  destruct a as [x|], b as [y|]; cbn; try (split; congruence).
  rewrite String.eqb_eq. split; congruence.
Qed.

(** X1.  [validateApiKey] lets a request through exactly when the key it
    carries (the x-api-key header if that is a non-empty string, else the
    api_key query parameter) is the expected key, which is the API_KEY
    environment value or, when that is unset or empty, the built-in
    "rdm-client-key-2024".  Every other request is answered 401, with
    MISSING_API_KEY when it carries no non-empty key and INVALID_API_KEY
    otherwise; a non-empty header decides alone, the query parameter is then
    not looked at. *)
Theorem validateApiKey_passes_the_expected_key_only
    (API_KEY x_api_key api_key : option string) :
  let supplied := js_or x_api_key api_key in
  let expected := js_or API_KEY (Some "rdm-client-key-2024") in
  (validateApiKey API_KEY x_api_key api_key = next <-> supplied = expected) /\
  (supplied <> expected ->
   validateApiKey API_KEY x_api_key api_key =
     respond (unauthorized
                (if truthy supplied then "Invalid API key" else "API key is required")
                (Some (if truthy supplied then "INVALID_API_KEY" else "MISSING_API_KEY")))) /\
  (truthy x_api_key = true ->
   validateApiKey API_KEY x_api_key api_key = validateApiKey API_KEY x_api_key None).
Proof.
  intros supplied expected. unfold validateApiKey. fold supplied expected.
  pose proof (truthy_expected API_KEY) as Hexp. fold expected in Hexp.
  split; [|split].
  - destruct (truthy supplied) eqn:Hs; cbn [negb].
    + destruct (strict_eq supplied expected) eqn:E; cbn [negb].
      * apply strict_eq_iff in E. now split.
      * split; [discriminate|]. intro H. apply strict_eq_iff in H. congruence.
    + split; [discriminate|]. intro H. congruence.
  - intro Hne. destruct (truthy supplied); cbn [negb]; [|reflexivity].
    destruct (strict_eq supplied expected) eqn:E; cbn [negb]; [|reflexivity].
    apply strict_eq_iff in E. contradiction.
  - intro Hh. subst supplied. unfold js_or. now rewrite Hh.
Qed.

(** A wrong key in the header, the right one in the query string. *)
Lemma validateApiKey_passes_the_expected_key_only_witness :
  validateApiKey None (Some "guess") (Some "rdm-client-key-2024") =
    respond (unauthorized "Invalid API key" (Some "INVALID_API_KEY")) /\
  validateApiKey None (Some "guess") (Some "rdm-client-key-2024") =
    validateApiKey None (Some "guess") None.
Proof.
  destruct (validateApiKey_passes_the_expected_key_only
              None (Some "guess") (Some "rdm-client-key-2024")) as (_ & H1 & H2).
  split; [apply H1; discriminate | apply H2; reflexivity].
Defined.

(** X2.  A request to /register, /sync or /heartbeat that does not carry
    the expected key is answered 401 and leaves the database as it was: the
    controller behind the middleware is not reached. *)
Theorem device_routes_refuse_without_the_key
    (API_KEY x_api_key api_key : option string) (now : datetime)
    (faults : list bool) (rb : register_body) (sb : sync_body)
    (hb : option string) (db : database) :
  js_or x_api_key api_key <> js_or API_KEY (Some "rdm-client-key-2024") ->
  let reg := post_register API_KEY x_api_key api_key now faults rb db in
  let syn := post_sync API_KEY x_api_key api_key now faults sb db in
  let hbt := post_heartbeat API_KEY x_api_key api_key now faults hb db in
  (status (fst reg) = 401 /\ snd reg = db) /\
  (status (fst syn) = 401 /\ snd syn = db) /\
  (status (fst hbt) = 401 /\ snd hbt = db).
Proof.
  intros Hne reg syn hbt. subst reg syn hbt.
  unfold post_register, post_sync, post_heartbeat, validateApiKey.
  destruct (truthy (js_or x_api_key api_key)); cbn [negb].
  - destruct (strict_eq _ _) eqn:E; cbn [negb].
    + apply strict_eq_iff in E. contradiction.
    + repeat split.
  - repeat split.
Qed.

(** A valid registration sent without any key. *)
Lemma device_routes_refuse_without_the_key_witness :
  let out := post_register None None None 10 []
               (mkRegister (Some "dev-1") (Some "Pixel 6") (Some "Google") None None)
               initializeSQLite in
  status (fst out) = 401 /\ snd out = initializeSQLite.
Proof.
  intro out.
  refine (proj1 (device_routes_refuse_without_the_key None None None 10 []
                   (mkRegister (Some "dev-1") (Some "Pixel 6") (Some "Google") None None)
                   (mkSync None None None None None None None None) None
                   initializeSQLite _)).
  discriminate.
Defined.

(** ** Payloads the validation chains refuse *)

Lemma notEmpty_nil (v : option string) (msg : string) :
  notEmpty v msg = [] <-> truthy v = true.
Proof.
  unfold notEmpty, truthy. destruct v as [s|]; [|split; discriminate].
  destruct (String.eqb s ""); cbn; split; congruence.
Qed.

Lemma deviceRegistrationValidation_nil (b : register_body) :
  deviceRegistrationValidation b = [] <->
  truthy (reg_device_id b) && truthy (reg_model b) && truthy (reg_manufacturer b) = true.
Proof.
  unfold deviceRegistrationValidation.
  rewrite !andb_true_iff, <- !notEmpty_nil. split.
  - intro H. apply app_eq_nil in H. destruct H as [H1 H].
    apply app_eq_nil in H. destruct H as [H2 H3]. repeat split; eassumption.
  - intros [[-> ->] ->]. reflexivity.
Qed.

Lemma run_returns {R : Type} (P : R -> Prop) (h : handler R) now faults db r db' :
  returns_only P h -> run h now faults db = (Some r, db') -> P r.
Proof.
  intro Hh. revert faults db. induction Hh as [r0 Hr0|A c k _ IH]; intros faults db.
  - cbn. now intros [= <- _].
  - cbn [run]. destruct faults as [|[] faults]; try discriminate.
    + destruct (perform c now db) as [[a db1]|]; [apply IH | discriminate].
    + destruct (perform c now db) as [[a db1]|]; [apply IH | discriminate].
Qed.

(** The answers of a handler: what its body returns, or the catch answer. *)
Lemma try_catch_answer (body : handler response) (on_error : response)
    now faults db (P : response -> Prop) :
  P on_error -> returns_only P body ->
  P (fst (try_catch body on_error now faults db)).
Proof.
  intros Herr Hret. unfold try_catch.
  destruct (run body now faults db) as [[r|] db'] eqn:E; cbn [fst]; [|exact Herr].
  eapply run_returns; eassumption.
Qed.

Ltac returns_cases :=
  repeat first
    [ apply returns_return; cbn; tauto
    | apply returns_await; intro
    | match goal with
      | |- returns_only _ (match ?x with _ => _ end) => destruct x
      end ].

(** The answers [registerDevice] can give once the payload is valid. *)
Lemma registerDevice_valid_statuses now faults b db :
  deviceRegistrationValidation b = [] ->
  In (status (fst (registerDevice now faults b db))) [200; 201; 500].
Proof.
  intro Hval. unfold registerDevice. apply try_catch_answer; [cbn; tauto|].
  unfold registerDevice_try. rewrite Hval. cbv zeta. returns_cases.
Qed.



Lemma optional_isInt_nil (v : option Z) (lo hi : Z) :
  optional_isInt v lo hi = [] <-> (forall n, v = Some n -> lo <= n <= hi).
Proof.
  unfold optional_isInt. destruct v as [n|]; [|split; [discriminate | reflexivity]].
  destruct (Z.leb_spec lo n) as [Hlo|Hlo], (Z.leb_spec n hi) as [Hhi|Hhi];
    cbn; split; intro Hx;
    try reflexivity; try discriminate;
    try (intros ? [= <-]; lia);
    specialize (Hx n eq_refl); lia.
Qed.

Lemma optional_isFloat_nil (v : option Q) (lo hi : Z) :
  optional_isFloat v lo hi = [] <->
  (forall x, v = Some x -> (inject_Z lo <= x <= inject_Z hi)%Q).
Proof.
  unfold optional_isFloat. destruct v as [x|]; [|split; [discriminate | reflexivity]].
  destruct (Qle_bool (inject_Z lo) x) eqn:E1, (Qle_bool x (inject_Z hi)) eqn:E2;
    cbn; split; intro H; try reflexivity; try discriminate.
  - intros ? [= <-]. split; now apply Qle_bool_iff.
  - destruct (H x eq_refl) as [_ H2]. apply Qle_bool_iff in H2. congruence.
  - destruct (H x eq_refl) as [H1 _]. apply Qle_bool_iff in H1. congruence.
  - destruct (H x eq_refl) as [H1 _]. apply Qle_bool_iff in H1. congruence.
Qed.

Lemma isInt_min0_nil (v : option Z) (msg : string) :
  isInt_min0 v msg = [] <-> exists ts, v = Some ts /\ 0 <= ts.
Proof.
  unfold isInt_min0. destruct v as [n|].
  - destruct (Z.leb_spec 0 n) as [Hn|Hn]; split; intro Hx; try discriminate; eauto.
    destruct Hx as (ts & [= <-] & ?). lia.
  - split; [discriminate|]. intros (ts & ? & _). discriminate.
Qed.

Lemma deviceSyncValidation_nil (b : sync_body) :
  deviceSyncValidation b = [] <-> valid_sync_payload b.
Proof.
  unfold deviceSyncValidation, valid_sync_payload.
  rewrite <- notEmpty_nil, <- optional_isInt_nil, <- !optional_isFloat_nil,
    <- isInt_min0_nil.
  split.
  - intro H. repeat (apply app_eq_nil in H; destruct H as [? H]).
    repeat split; eassumption.
  - intros (-> & -> & -> & -> & ->). reflexivity.
Qed.

Lemma syncDeviceData_valid_statuses now faults b db :
  deviceSyncValidation b = [] ->
  In (status (fst (syncDeviceData now faults b db))) [200; 404; 500].
Proof.
  intro Hval. unfold syncDeviceData. apply try_catch_answer; [cbn; tauto|].
  unfold syncDeviceData_try. rewrite Hval. cbv zeta. returns_cases.
Qed.


(** ** What every statement keeps, every handler keeps *)

(** A relation between the database before and after that every awaited
    statement respects is respected by the whole run, under every storage
    behaviour. *)
Lemma run_keeps (Q : forall A : Type, dbcall A -> Prop)
    (Rel : database -> database -> Prop) :
  (forall db, Rel db db) ->
  (forall a b c, Rel a b -> Rel b c -> Rel a c) ->
  (forall A (c : dbcall A) now db a db',
     Q A c -> perform c now db = Some (a, db') -> Rel db db') ->
  forall (R : Type) (h : handler R) now faults db,
    awaits_only Q h -> Rel db (snd (run h now faults db)).
Proof.
  intros Hrefl Htrans Hstep R h now faults db Hh. revert faults db.
  induction Hh as [r|A c k Hc _ IH]; intros faults db; cbn [run].
  - apply Hrefl.
  - assert (Hgo : forall fs, Rel db
              (snd match perform c now db with
                   | Some (a, db') => run (k a) now fs db'
                   | None => (None, db)
                   end)).
    { intro fs. destruct (perform c now db) as [[a db']|] eqn:E; [|apply Hrefl].
      eapply Htrans; [eapply Hstep; eassumption | apply IH]. }
    destruct faults as [|[] fs]; [apply Hgo | apply Hrefl | apply Hgo].
Qed.

Lemma snd_try_catch (body : handler response) (on_error : response) now faults db :
  snd (try_catch body on_error now faults db) = snd (run body now faults db).
Proof. unfold try_catch. now destruct (run body now faults db) as [[r|] db']. Qed.

Lemma awaits_only_each (Q : forall A : Type, dbcall A -> Prop)
    {A B R : Type} (f : A -> dbcall B) (xs : list A)
    (k : list (A * B) -> handler R) :
  (forall x, Q B (f x)) -> (forall l, awaits_only Q (k l)) ->
  awaits_only Q (await_each f xs k).
Proof.
  intros Hf. revert k. induction xs as [|x xs IH]; intros k Hk; cbn [await_each].
  - apply Hk.
  - apply awaits_await; [apply Hf|]. intro y. apply IH. intro l. apply Hk.
Qed.

(** The bodies of the six handlers, statement by statement. *)
Ltac awaits_cases tac :=
  repeat first
    [ apply awaits_return
    | apply awaits_await; [solve [tac] | intro]
    | apply awaits_only_each; [intro; solve [tac] | intro]
    | match goal with
      | |- awaits_only _ (match ?x with _ => _ end) => destruct x
      end ].

Ltac is_read := intros ? ?; eexists; reflexivity.

Lemma getAllDevices_reads (q : list_query) : awaits_only reads (getAllDevices_try q).
Proof. unfold getAllDevices_try. cbv zeta. awaits_cases is_read. Qed.

Lemma getDeviceDetails_reads (deviceId : string) (q : list_query) :
  awaits_only reads (getDeviceDetails_try deviceId q).
Proof. unfold getDeviceDetails_try. cbv zeta. awaits_cases is_read. Qed.

(** X5.  The two query handlers only read: under every storage behaviour,
    for every query and database, [getAllDevices] and [getDeviceDetails]
    leave the database exactly as it was. *)
Theorem query_handlers_only_read
    (now : datetime) (faults : list bool) (deviceId : string) (q : list_query)
    (db : database) :
  snd (getAllDevices now faults q db) = db /\
  snd (getDeviceDetails now faults deviceId q db) = db.
Proof.
  unfold getAllDevices, getDeviceDetails. rewrite !snd_try_catch.
  assert (H : forall (h : handler response),
            awaits_only reads h -> snd (run h now faults db) = db).
  { intros h Hh. symmetry.
    apply (run_keeps reads (fun a b => a = b)); try assumption; try congruence.
    intros A c now0 db0 a db' Hc E. destruct (Hc now0 db0) as [a' E'].
    congruence. }
  split; apply H; [apply getAllDevices_reads | apply getDeviceDetails_reads].
Qed.

(** ** One row per device_id, whatever is called *)

Lemma map_device_id_updated (d : option string) (f : device -> device)
    (rs : list device) :
  (forall r, device_id (f r) = device_id r) ->
  map device_id (map (fun r => if sql_eq (device_id r) d then f r else r) rs) =
  map device_id rs.
Proof.
  intro Hf. induction rs as [|r rs IH]; [reflexivity|]. cbn [map]. rewrite IH.
  f_equal. destruct (sql_eq (device_id r) d); [apply Hf | reflexivity].
Qed.

Lemma not_exists_not_in (d : string) (rs : list device) :
  existsb (fun r => sql_eq (device_id r) (Some d)) rs = false ->
  ~ In d (map device_id rs).
Proof.
  induction rs as [|r rs IH]; cbn [existsb map In sql_eq]; [tauto|].
  intro H. apply orb_false_iff in H. destruct H as [Hr Hrs].
  apply String.eqb_neq in Hr. intros [E|Hin]; [congruence | now apply IH].
Qed.

Lemma filter_keeps_keys_distinct {row key : Type} (column : row -> key)
    (keep : row -> bool) (rows : list row) (Hkeys : NoDup (map column rows)) :
  NoDup (map column (filter keep rows)).
Proof.
  induction rows as [|r rows IH]; cbn [map filter] in *; [exact Hkeys|].
  apply NoDup_cons_iff in Hkeys as [Hr Hrows].
  destruct (keep r); [|exact (IH Hrows)].
  cbn [map]. apply NoDup_cons; [|exact (IH Hrows)].
  intro Hin. apply Hr. apply in_map_iff in Hin as (r' & Hcol & Hin).
  apply filter_In in Hin. apply in_map_iff. exists r'. tauto.
Qed.

Ltac perform_cases c H :=
  destruct c; cbn [perform] in H;
  repeat match type of H with
         | context [match ?x with _ => _ end] => destruct x eqn:?
         end;
  try discriminate; injection H as <- <-.

Lemma perform_unique_device_ids {A : Type} (c : dbcall A) now db a db' :
  perform c now db = Some (a, db') ->
  unique_device_ids db -> unique_device_ids db'.
Proof.
  intros H Hu. unfold unique_device_ids in *.
  perform_cases c H; try assumption;
    cbn [update_where set_devices devices].
  all: try (rewrite map_device_id_updated by reflexivity; assumption).
  - rewrite map_app. cbn [map device_id].
    apply NoDup_app; [assumption | repeat constructor; cbn; tauto |].
    intros x Hx [<-|[]].
    match goal with
    | E : exists_device _ _ = false |- _ =>
        now apply (not_exists_not_in _ _ E)
    end.
  - now apply filter_keeps_keys_distinct.
  - now apply filter_keeps_keys_distinct.
Qed.

Lemma serve_snd (c : api_call) (db : database) :
  exists (h : handler response) now faults,
    snd (serve c db) = snd (run h now faults db).
Proof.
  destruct c; cbn [serve];
    unfold registerDevice, syncDeviceData, heartbeat, deleteDevice,
      getAllDevices, getDeviceDetails;
    rewrite snd_try_catch; eauto.
Qed.

Lemma awaits_anything {R : Type} (h : handler R) :
  awaits_only (fun _ _ => True) h.
Proof. induction h; constructor; auto. Qed.

(** A property of the database that every statement keeps is kept by
    every run of calls. *)
Lemma serve_all_keeps (P : database -> Prop) :
  (forall A (c : dbcall A) now db a db',
     perform c now db = Some (a, db') -> P db -> P db') ->
  forall calls db, P db -> P (serve_all calls db).
Proof.
  intros Hstep calls. unfold serve_all.
  induction calls as [|c calls IH]; intros db Hdb; cbn [fold_left]; [exact Hdb|].
  apply IH. destruct (serve_snd c db) as (h & now & faults & ->).
  apply (run_keeps (fun _ _ => True) (fun a b => P a -> P b)); auto.
  - intros A c0 now0 db0 a db' _ E. eapply Hstep; eassumption.
  - apply awaits_anything.
Qed.

(** X6.  No run of calls (registrations, syncs, heartbeats, deletions and
    queries, with any payloads and under any storage failures) gives a
    device_id a second row: a database with at most one row per device_id
    stays so. *)
Theorem serve_all_keeps_device_ids_unique
    (calls : list api_call) (db : database) :
  unique_device_ids db -> unique_device_ids (serve_all calls db).
Proof.
  apply serve_all_keeps. intros A c now db0 a db'. apply perform_unique_device_ids.
Qed.

(** The same device registers twice, syncs and registers once more, on
    the empty database. *)
Lemma serve_all_keeps_device_ids_unique_witness :
  let b := mkRegister (Some "dev-1") (Some "Pixel 6") (Some "Google") None None in
  let s := mkSync (Some "dev-1") (Some 85) None None None None None (Some 1000) in
  unique_device_ids
    (serve_all [call_register 10 [] b; call_register 20 [] b;
                call_sync 30 [] s; call_register 40 [false; true] b]
       initializeSQLite).
Proof.
  intros b s. apply serve_all_keeps_device_ids_unique. constructor.
Defined.

(** A relation that every statement respects holds between the database
    before and after every run of calls. *)
Lemma serve_all_relates (Rel : database -> database -> Prop) :
  (forall db, Rel db db) ->
  (forall a b c, Rel a b -> Rel b c -> Rel a c) ->
  (forall A (c : dbcall A) now db a db',
     perform c now db = Some (a, db') -> Rel db db') ->
  forall calls db, Rel db (serve_all calls db).
Proof.
  intros Hrefl Htrans Hstep calls. unfold serve_all.
  induction calls as [|c calls IH]; intro db; cbn [fold_left]; [apply Hrefl|].
  eapply Htrans; [|apply IH].
  destruct (serve_snd c db) as (h & now & faults & ->).
  apply (run_keeps (fun _ _ => True) Rel); auto.
  - intros A c0 now0 db0 a db' _ E. eapply Hstep; eassumption.
  - apply awaits_anything.
Qed.

(** ** Row ids are not given twice *)

Lemma row_ids_kept_refl db : row_ids_kept db db.
Proof.
  split; [lia|]. split; [trivial|]. intros r' Hin. left. now exists r'.
Qed.

Lemma row_ids_kept_trans a b c :
  row_ids_kept a b -> row_ids_kept b c -> row_ids_kept a c.
Proof.
  intros (Hs1 & Hi1 & Ho1) (Hs2 & Hi2 & Ho2). split; [lia|]. split; [auto|].
  intros r'' Hin. destruct (Ho2 r'' Hin) as [(r' & Hin' & Eid & Edev)|Hnew].
  - destruct (Ho1 r' Hin') as [(r & Hr & Eid' & Edev')|Hnew'].
    + left. exists r. repeat split; congruence.
    + right. lia.
  - right. lia.
Qed.

Lemma row_ids_kept_updated (d : option string) (f : device -> device) db :
  (forall r, id (f r) = id r) -> (forall r, device_id (f r) = device_id r) ->
  row_ids_kept db (update_where d f db).
Proof.
  intros Hid Hdev. unfold row_ids_kept, update_where, set_devices, ids_in_sequence.
  cbn [devices devices_seq]. split; [lia|]. split.
  - intros [Hnd Hle]. split.
    + rewrite map_map.
      erewrite map_ext; [exact Hnd|].
      intro r. cbn. destruct (sql_eq (device_id r) d); [apply Hid | reflexivity].
    + apply Forall_map. eapply Forall_impl; [|exact Hle].
      intros r Hr. cbn. destruct (sql_eq (device_id r) d); [now rewrite Hid | exact Hr].
  - intros r' Hin. apply in_map_iff in Hin. destruct Hin as (r & <- & Hr).
    left. exists r. split; [exact Hr|].
    destruct (sql_eq (device_id r) d); [now rewrite Hid, Hdev | now split].
Qed.

Lemma row_ids_kept_filtered (p : device -> bool) db db' :
  devices db' = filter p (devices db) -> devices_seq db' = devices_seq db ->
  row_ids_kept db db'.
Proof.
  intros Hd Hs. unfold row_ids_kept, ids_in_sequence. rewrite Hd, Hs.
  split; [lia|]. split.
  - intros [Hnd Hle]. split; [now apply filter_keeps_keys_distinct|].
    apply Forall_forall. intros r Hr. apply filter_In in Hr.
    rewrite Forall_forall in Hle. now apply Hle.
  - intros r' Hin. apply filter_In in Hin. left. exists r'. tauto.
Qed.

Lemma perform_row_ids_kept {A : Type} (c : dbcall A) now db a db' :
  perform c now db = Some (a, db') -> row_ids_kept db db'.
Proof.
  intro H. perform_cases c H; try apply row_ids_kept_refl;
    try (apply row_ids_kept_updated; reflexivity);
    try (eapply row_ids_kept_filtered; reflexivity).
  - (* INSERT INTO devices *)
    unfold row_ids_kept, ids_in_sequence. cbn [devices devices_seq].
    split; [lia|]. split.
    + intros [Hnd Hle]. rewrite map_app. cbn [map id]. split.
      * apply NoDup_app; [assumption | repeat constructor; cbn; tauto |].
        intros x Hx [<-|[]]. apply in_map_iff in Hx. destruct Hx as (r & Er & Hr).
        rewrite Forall_forall in Hle. specialize (Hle r Hr). lia.
      * apply Forall_app. split.
        -- eapply Forall_impl; [|exact Hle]. cbn. intros; lia.
        -- repeat constructor. cbn. lia.
    + intros r' Hin. apply in_app_or in Hin. destruct Hin as [Hin|[<-|[]]].
      * left. now exists r'.
      * right. cbn. lia.
  - (* INSERT INTO device_logs *)
    unfold row_ids_kept, ids_in_sequence. cbn [devices devices_seq].
    split; [lia|]. split; [trivial|]. intros r' Hin. left. now exists r'.
Qed.

(** X7.  Row ids are never given twice, whatever is called.  After any
    run of calls the ids of the rows are pairwise different and at most the
    AUTOINCREMENT counter, the counter has not gone back, and every row is
    either a row that was there before the calls, with the same id and
    device_id, or has an id above the counter of before: a device
    registered after a deletion does not take over the id of the deleted
    row. *)
Theorem serve_all_never_reuses_row_ids (calls : list api_call) (db : database) :
  ids_in_sequence db ->
  let db' := serve_all calls db in
  ids_in_sequence db' /\
  devices_seq db <= devices_seq db' /\
  (forall r', In r' (devices db') ->
     (exists r, In r (devices db) /\ id r = id r' /\ device_id r = device_id r') \/
     devices_seq db < id r').
Proof.
  intros Hids db'. subst db'.
  destruct (serve_all_relates row_ids_kept row_ids_kept_refl row_ids_kept_trans
              (fun A c now db0 a db1 => perform_row_ids_kept c now db0 a db1)
              calls db) as (Hs & Hi & Ho).
  auto.
Qed.

(** "dev-1" is registered, deleted and registered again: the new row has
    id 2. *)
Lemma serve_all_never_reuses_row_ids_witness :
  let b := mkRegister (Some "dev-1") (Some "Pixel 6") (Some "Google") None None in
  let db' := serve_all [call_register 10 [] b; call_delete 20 [] "dev-1";
                        call_register 30 [] b] initializeSQLite in
  ids_in_sequence db' /\ map id (devices db') = [2].
Proof.
  intros b db'. split; [|reflexivity].
  apply (serve_all_never_reuses_row_ids
           [call_register 10 [] b; call_delete 20 [] "dev-1"; call_register 30 [] b]
           initializeSQLite).
  split; constructor.
Defined.

(** ** is_active is never cleared *)

Lemma all_active_updated (d : option string) (f : device -> device) db :
  (forall r, is_active r = true -> is_active (f r) = true) ->
  all_active db -> all_active (update_where d f db).
Proof.
  intros Hf H. unfold all_active, update_where, set_devices in *. cbn [devices].
  apply Forall_map. eapply Forall_impl; [|exact H].
  intros r Hr. cbn. destruct (sql_eq (device_id r) d); auto.
Qed.

Lemma perform_all_active {A : Type} (c : dbcall A) now db a db' :
  perform c now db = Some (a, db') -> all_active db -> all_active db'.
Proof.
  intros H Ha. perform_cases c H; try assumption;
    try (apply all_active_updated; [|assumption]; intros r Hr; solve [reflexivity | exact Hr]).
  - unfold all_active in *. cbn [devices]. apply Forall_app. split; [assumption|].
    repeat constructor.
  - unfold all_active in *. cbn [devices]. apply Forall_forall. intros r Hr.
    apply filter_In in Hr. rewrite Forall_forall in Ha. now apply Ha.
  - unfold all_active in *. cbn [devices]. apply Forall_forall. intros r Hr.
    apply filter_In in Hr. rewrite Forall_forall in Ha. now apply Ha.
Qed.

Lemma matched_not_active (search st : string) (db : database) :
  String.eqb st "all" = false -> String.eqb st "active" = false ->
  all_active db -> matched search st db = [].
Proof.
  intros Hall Hact Ha. unfold matched, whereClause, where_holds.
  cbn [like_pattern is_active_is]. rewrite Hall, Hact. unfold all_active in Ha.
  induction Ha as [|r rs Hr _ IH]; [reflexivity|].
  cbn [filter]. rewrite Hr. cbn [Bool.eqb]. now rewrite andb_false_r.
Qed.

(** X8.  No call ever clears is_active.  If every device of a database is
    active, then after any run of calls every device is active, and a list
    query with a status other than "all" and "active" (such as "inactive")
    answers 200 with no device and total 0. *)
Theorem serve_all_keeps_devices_active
    (calls : list api_call) (now : datetime) (page limit : option Z)
    (search : option string) (st : string) (db : database) :
  all_active db ->
  st <> "all" -> st <> "active" ->
  let db' := serve_all calls db in
  let res := fst (getAllDevices now [] (mkQuery page limit search (Some st)) db') in
  all_active db' /\
  status res = 200 /\ returned_devices res = [] /\ returned_total res = Some 0.
Proof.
  intros Ha Hall Hact db' res.
  assert (Ha' : all_active db').
  { apply (serve_all_keeps all_active); [|exact Ha].
    intros A c now0 db0 a db1. apply perform_all_active. }
  split; [exact Ha'|]. subst res. rewrite getAllDevices_steps.
  cbn [fst q_page q_limit q_search q_status or_default].
  rewrite (matched_not_active _ st db') by
    (try assumption; now apply String.eqb_neq).
  unfold returned_devices, returned_total, ok, limit_offset. cbn [data pg_total].
  split; [reflexivity|]. split; [|reflexivity].
  cbn [order_by_desc fold_right]. rewrite skipn_nil.
  destruct (_ <? 0); [reflexivity | now rewrite firstn_nil].
Qed.

(** Two registrations, a sync and a heartbeat, then the inactive list. *)
Lemma serve_all_keeps_devices_active_witness :
  let b1 := mkRegister (Some "dev-1") (Some "Pixel 6") (Some "Google") None None in
  let b2 := mkRegister (Some "dev-2") (Some "Galaxy S21") (Some "Samsung") None None in
  let s := mkSync (Some "dev-1") (Some 85) None None None None None (Some 1000) in
  let db' := serve_all [call_register 10 [] b1; call_register 20 [] b2;
                        call_sync 30 [] s; call_heartbeat 40 [] (Some "dev-2")]
               initializeSQLite in
  returned_total
    (fst (getAllDevices 50 [] (mkQuery None None None (Some "inactive")) db')) =
  Some 0.
Proof.
  intros b1 b2 s db'.
  apply (serve_all_keeps_devices_active
           [call_register 10 [] b1; call_register 20 [] b2;
            call_sync 30 [] s; call_heartbeat 40 [] (Some "dev-2")]
           50 None None None "inactive" initializeSQLite).
  - constructor.
  - discriminate.
  - discriminate.
Defined.

(** ** Calls that do not delete *)

Lemma serve_body (c : api_call) (db : database) :
  snd (serve c db) = snd (run (body_of c) (clock_of c) (faults_of c) db).
Proof.
  destruct c; cbn [serve body_of clock_of faults_of];
    unfold registerDevice, syncDeviceData, heartbeat, deleteDevice,
      getAllDevices, getDeviceDetails;
    apply snd_try_catch.
Qed.

Ltac handler_bodies :=
  cbn [body_of];
  unfold registerDevice_try, syncDeviceData_try, heartbeat_try, deleteDevice_try,
    getAllDevices_try, getDeviceDetails_try;
  cbv zeta.

Lemma body_not_a_delete (c : api_call) :
  is_delete c = false -> awaits_only not_a_delete (body_of c).
Proof.
  destruct c; cbn [is_delete]; intro H; try discriminate;
    handler_bodies; awaits_cases ltac:(exact I).
Qed.

(** A relation that every statement but the DELETE respects holds across
    every run of calls without a deletion. *)
Lemma serve_all_relates_without_delete (Rel : database -> database -> Prop) :
  (forall db, Rel db db) ->
  (forall a b c, Rel a b -> Rel b c -> Rel a c) ->
  (forall A (c : dbcall A) now db a db',
     not_a_delete A c -> perform c now db = Some (a, db') -> Rel db db') ->
  forall calls db,
    Forall (fun c => is_delete c = false) calls -> Rel db (serve_all calls db).
Proof.
  intros Hrefl Htrans Hstep calls db Hcalls. revert db. unfold serve_all.
  induction Hcalls as [|c calls Hc _ IH]; intro db; cbn [fold_left]; [apply Hrefl|].
  eapply Htrans; [|apply IH]. rewrite serve_body.
  apply (run_keeps not_a_delete Rel); auto. now apply body_not_a_delete.
Qed.

Lemma map_identity_updated (d : option string) (f : device -> device)
    (rs : list device) :
  (forall r, identity (f r) = identity r) ->
  map identity (map (fun r => if sql_eq (device_id r) d then f r else r) rs) =
  map identity rs.
Proof.
  intro Hf. induction rs as [|r rs IH]; [reflexivity|]. cbn [map]. rewrite IH.
  f_equal. destruct (sql_eq (device_id r) d); [apply Hf | reflexivity].
Qed.

Lemma perform_keeps_identities {A : Type} (c : dbcall A) now db a db' :
  not_a_delete A c -> perform c now db = Some (a, db') ->
  exists new, map identity (devices db') = map identity (devices db) ++ new.
Proof.
  intros Hc H. perform_cases c H; try contradiction;
    cbn [update_where set_devices devices];
    try (exists []; rewrite app_nil_r;
         first [reflexivity | apply map_identity_updated; reflexivity]).
  rewrite map_app. eauto.
Qed.

(** X9.  Registrations, syncs, heartbeats and queries never remove or
    reorder a device row and never change its id, device_id, first_seen or
    created_at: after any run of such calls the rows that were there are
    still there, in place, with these four fields as before, followed by
    the rows registered since. *)
Theorem rows_keep_their_identity (calls : list api_call) (db : database) :
  Forall (fun c => is_delete c = false) calls ->
  exists new,
    map identity (devices (serve_all calls db)) =
    map identity (devices db) ++ new.
Proof.
  apply (serve_all_relates_without_delete
           (fun a b => exists new,
              map identity (devices b) = map identity (devices a) ++ new)).
  - intro a. exists []. now rewrite app_nil_r.
  - intros a b c [n1 H1] [n2 H2]. exists (n1 ++ n2). now rewrite H2, H1, app_assoc.
  - intros A c now db0 a db'. apply perform_keeps_identities.
Qed.

(** "dev-1" registers at 10, syncs, registers again and sends a
    heartbeat. *)
Lemma rows_keep_their_identity_witness :
  let b := mkRegister (Some "dev-1") (Some "Pixel 6") (Some "Google") None None in
  let s := mkSync (Some "dev-1") (Some 85) None None None None None (Some 1000) in
  let db := snd (registerDevice 10 [] b initializeSQLite) in
  exists new,
    map identity (devices (serve_all [call_sync 30 [] s; call_register 40 [] b;
                                     call_heartbeat 50 [] (Some "dev-1")] db)) =
    [(1, "dev-1", 10, 10)] ++ new.
Proof.
  intros b s db.
  apply (rows_keep_their_identity
           [call_sync 30 [] s; call_register 40 [] b;
            call_heartbeat 50 [] (Some "dev-1")] db).
  repeat constructor.
Defined.

(** ** A call about one device leaves the others alone *)

Lemma body_aimed_at (c : api_call) :
  awaits_only (aimed_at (target c)) (body_of c).
Proof.
  destruct c; cbn [target]; handler_bodies;
    awaits_cases ltac:(first [exact I | reflexivity]).
Qed.

Lemma sql_eq_other (d' : string) (t : option string) :
  t <> Some d' -> sql_eq d' t = false.
Proof.
  intro H. destruct t as [x|]; [|reflexivity]. cbn.
  apply String.eqb_neq. congruence.
Qed.

Lemma device_rows_updated (d' : string) (t : option string)
    (f : device -> device) (rs : list device) :
  t <> Some d' -> (forall r, device_id (f r) = device_id r) ->
  filter (fun r => String.eqb (device_id r) d')
    (map (fun r => if sql_eq (device_id r) t then f r else r) rs) =
  filter (fun r => String.eqb (device_id r) d') rs.
Proof.
  intros Ht Hf. induction rs as [|r rs IH]; [reflexivity|].
  cbn [map filter]. rewrite IH.
  destruct (String.eqb (device_id r) d') eqn:E.
  - assert (Hs : sql_eq (device_id r) t = false).
    { apply String.eqb_eq in E. rewrite E. now apply sql_eq_other. }
    rewrite Hs. now rewrite E.
  - destruct (sql_eq (device_id r) t); [rewrite Hf|]; now rewrite E.
Qed.

Lemma filter_other {A : Type} (key : A -> string) (d' : string)
    (t : option string) (l : list A) :
  t <> Some d' ->
  filter (fun x => String.eqb (key x) d')
    (filter (fun x => negb (sql_eq (key x) t)) l) =
  filter (fun x => String.eqb (key x) d') l.
Proof.
  intro Ht. induction l as [|x l IH]; [reflexivity|]. cbn [filter].
  destruct (String.eqb (key x) d') eqn:E.
  - assert (Hs : sql_eq (key x) t = false).
    { apply String.eqb_eq in E. rewrite E. now apply sql_eq_other. }
    rewrite Hs. cbn [negb filter]. now rewrite E, IH.
  - destruct (sql_eq (key x) t); cbn [negb filter]; [exact IH|].
    now rewrite E.
Qed.

Lemma perform_leaves_others {A : Type} (c : dbcall A) (t : option string)
    (d' : string) now db a db' :
  t <> Some d' -> aimed_at t A c -> perform c now db = Some (a, db') ->
  device_rows d' db' = device_rows d' db /\
  device_records d' db' = device_records d' db.
Proof.
  intros Ht Hc H. unfold device_rows, device_records.
  perform_cases c H; cbn [aimed_at] in Hc; try subst;
    cbn [update_where set_devices devices device_logs];
    try (split; reflexivity);
    try (split; [apply device_rows_updated; [assumption | reflexivity] | reflexivity]).
  - (* INSERT INTO devices *)
    split; [|reflexivity]. rewrite filter_app. cbn [filter device_id].
    destruct (String.eqb_spec s d') as [E|E]; [congruence | apply app_nil_r].
  - (* INSERT INTO device_logs *)
    split; [reflexivity|]. rewrite filter_app. cbn [filter log_device_id].
    destruct (String.eqb_spec s d') as [E|E]; [congruence | apply app_nil_r].
  - (* DELETE, foreign keys on *)
    split; now apply filter_other.
  - (* DELETE, foreign keys off *)
    split; [now apply filter_other | reflexivity].
Qed.

(** X10.  A call about one device_id leaves every other device alone:
    whatever the call (registration, sync, heartbeat, deletion or query),
    its payload and the storage behaviour, the row and the telemetry
    records of every other device_id are afterwards exactly what they
    were. *)
Theorem serve_leaves_other_devices_alone
    (c : api_call) (d' : string) (db : database) :
  target c <> Some d' ->
  device_rows d' (snd (serve c db)) = device_rows d' db /\
  device_records d' (snd (serve c db)) = device_records d' db.
Proof.
  intro Ht. rewrite serve_body.
  apply (run_keeps (aimed_at (target c))
           (fun a b => device_rows d' b = device_rows d' a /\
                       device_records d' b = device_records d' a)).
  - now split.
  - intros a b c0 [H1 H2] [H3 H4]. split; congruence.
  - intros A c0 now db0 a db' Hc E.
    now apply (perform_leaves_others c0 (target c) d' now db0 a db').
  - apply body_aimed_at.
Qed.

(** "dev-1" and "dev-2" are registered and "dev-2" has a record; "dev-1"
    is deleted. *)
Lemma serve_leaves_other_devices_alone_witness :
  let b1 := mkRegister (Some "dev-1") (Some "Pixel 6") (Some "Google") None None in
  let b2 := mkRegister (Some "dev-2") (Some "Galaxy S21") (Some "Samsung") None None in
  let s2 := mkSync (Some "dev-2") (Some 50) None None None None None (Some 2000) in
  let db := serve_all [call_register 10 [] b1; call_register 20 [] b2;
                       call_sync 30 [] s2] initializeSQLite in
  let db' := snd (serve (call_delete 40 [] "dev-1") db) in
  device_rows "dev-2" db' = device_rows "dev-2" db /\
  device_records "dev-2" db' = device_records "dev-2" db.
Proof.
  intros b1 b2 s2 db db'.
  apply (serve_leaves_other_devices_alone (call_delete 40 [] "dev-1") "dev-2" db).
  discriminate.
Defined.
(** ** Records without a device *)

Lemma exists_device_more (d : option string) (db db' : database) :
  (forall r, In r (devices db) ->
     exists r', In r' (devices db') /\ device_id r' = device_id r) ->
  exists_device d db = true -> exists_device d db' = true.
Proof.
  intros H E. unfold exists_device in *. apply existsb_exists in E.
  destruct E as (r & Hr & Er). destruct (H r Hr) as (r' & Hr' & Ed).
  apply existsb_exists. exists r'. split; [exact Hr' | now rewrite Ed].
Qed.

Lemma no_orphans_more (db db' : database) :
  (forall r, In r (devices db) ->
     exists r', In r' (devices db') /\ device_id r' = device_id r) ->
  device_logs db' = device_logs db ->
  no_orphans db -> no_orphans db'.
Proof.
  intros Hd Hl H. unfold no_orphans in *. rewrite Hl.
  eapply Forall_impl; [|exact H]. intros l. now apply exists_device_more.
Qed.

Lemma rows_kept_updated (d : option string) (f : device -> device) db r :
  (forall r, device_id (f r) = device_id r) ->
  In r (devices db) ->
  exists r', In r' (devices (update_where d f db)) /\ device_id r' = device_id r.
Proof.
  intros Hf Hr. cbn [update_where set_devices devices].
  exists (if sql_eq (device_id r) d then f r else r). split.
  - apply in_map_iff. now exists r.
  - destruct (sql_eq (device_id r) d); [apply Hf | reflexivity].
Qed.

Lemma perform_keeps_no_orphans {A : Type} (c : dbcall A) now db a db' :
  leaves_the_log A c -> perform c now db = Some (a, db') ->
  no_orphans db -> no_orphans db'.
Proof.
  intros Hc H. perform_cases c H; try contradiction; try trivial;
    try (apply no_orphans_more; [|reflexivity]; intros r Hr;
         apply rows_kept_updated; [reflexivity | exact Hr]).
  apply no_orphans_more; [|reflexivity]. intros r Hr. cbn [devices].
  exists r. split; [apply in_or_app; now left | reflexivity].
Qed.

Lemma perform_foreign_keys {A : Type} (c : dbcall A) now db a db' :
  perform c now db = Some (a, db') -> foreign_keys db' = foreign_keys db.
Proof. intro H. perform_cases c H; reflexivity. Qed.

Lemma no_orphans_with_log now d b ts db :
  exists_device (Some d) db = true ->
  no_orphans db -> no_orphans (with_log now d b ts db).
Proof.
  intros Hd H. unfold no_orphans, with_log in *. cbn [device_logs].
  apply Forall_app. split.
  - eapply Forall_impl; [|exact H]. intros l Hl. exact Hl.
  - repeat constructor. exact Hd.
Qed.

(** On a connection that enforces foreign keys every statement keeps the
    records attached. *)
Lemma perform_keeps_no_orphans_enforced {A : Type} (c : dbcall A) now db a db' :
  perform c now db = Some (a, db') ->
  foreign_keys db = true /\ no_orphans db ->
  foreign_keys db' = true /\ no_orphans db'.
Proof.
  intros H [Hfk Hno]. split; [now rewrite (perform_foreign_keys c now db a db' H)|].
  destruct c;
    try (apply (fun Hc => perform_keeps_no_orphans _ now db a db' Hc H Hno);
         exact I).
  - (* INSERT INTO device_logs *)
    cbn [perform] in H. destruct d as [d'|]; [|discriminate H].
    destruct ts as [ts'|]; [|discriminate H]. rewrite Hfk in H. cbn [andb] in H.
    destruct (exists_device (Some d') db) eqn:E; cbn [negb] in H; [|discriminate].
    injection H as _ <-.
    unfold no_orphans in *. cbn [device_logs]. apply Forall_app. split.
    + eapply Forall_impl; [|exact Hno]. intros l Hl. exact Hl.
    + repeat constructor. exact E.
  - (* DELETE FROM devices *)
    cbn [perform] in H. injection H as _ <-. rewrite Hfk.
    unfold no_orphans in *. cbn [device_logs]. apply Forall_forall.
    intros l Hl. apply filter_In in Hl. destruct Hl as [Hl Hkeep].
    rewrite Forall_forall in Hno. specialize (Hno l Hl).
    unfold exists_device in *. cbn [devices]. apply existsb_exists in Hno.
    destruct Hno as (r & Hr & Er). apply existsb_exists. exists r.
    split; [|exact Er]. apply filter_In. split; [exact Hr|].
    cbn [sql_eq] in Er. apply String.eqb_eq in Er. now rewrite Er.
Qed.

Lemma exists_device_names (t : option string) db :
  exists_device t db = true -> exists d, t = Some d.
Proof.
  destruct t as [d|]; [eauto|]. unfold exists_device. intro H.
  apply existsb_exists in H. destruct H as (r & _ & Hr). discriminate.
Qed.

Lemma syncDeviceData_unknown_unchanged now faults b db :
  exists_device (sync_device_id b) db = false ->
  snd (syncDeviceData now faults b db) = db.
Proof.
  intro Hnew. unfold syncDeviceData, try_catch, syncDeviceData_try.
  destruct (deviceSyncValidation b) as [|e es]; [|reflexivity].
  cbv zeta. destruct (hd false faults) eqn:Hf.
  - now rewrite run_await_fault.
  - rewrite run_await_faults by assumption.
    now rewrite (perform_select_none _ _ _ Hnew).
Qed.

Lemma syncDeviceData_keeps_no_orphans now faults b db :
  no_orphans db -> no_orphans (snd (syncDeviceData now faults b db)).
Proof.
  intro Hno.
  destruct (deviceSyncValidation b) as [|e es] eqn:Hval.
  2:{ unfold syncDeviceData, try_catch, syncDeviceData_try. now rewrite Hval. }
  destruct (exists_device (sync_device_id b) db) eqn:Hex.
  2:{ now rewrite syncDeviceData_unknown_unchanged. }
  destruct (exists_device_names _ _ Hex) as [d Hd].
  destruct (sync_valid_timestamp b Hval) as [ts Hts].
  rewrite Hd in Hex.
  rewrite (syncDeviceData_steps now faults b d ts db Hd Hts Hval Hex).
  destruct (nth 0 faults false || nth 1 faults false); [exact Hno|].
  destruct (nth 2 faults false); cbn [snd].
  - now apply no_orphans_with_log.
  - apply (no_orphans_more (with_log now d b ts db)); [|reflexivity|].
    + intros r Hr. apply rows_kept_updated; [reflexivity | exact Hr].
    + now apply no_orphans_with_log.
Qed.

Lemma body_leaves_the_log (c : api_call) :
  is_delete c = false -> (forall now f b, c <> call_sync now f b) ->
  awaits_only leaves_the_log (body_of c).
Proof.
  destruct c; cbn [is_delete]; intros H Hs; try discriminate;
    try (exfalso; eapply Hs; reflexivity);
    handler_bodies; awaits_cases ltac:(exact I).
Qed.

Lemma serve_keeps_no_orphans (c : api_call) db :
  is_delete c = false -> no_orphans db -> no_orphans (snd (serve c db)).
Proof.
  intros Hc Hno.
  destruct c as [now f b|now f b|now f d|now f d|now f q|now f d q];
    try discriminate.
  2:{ cbn [serve]. now apply syncDeviceData_keeps_no_orphans. }
  all: rewrite serve_body;
    apply (run_keeps leaves_the_log (fun a b => no_orphans a -> no_orphans b));
    [ auto | auto
    | intros A c0 now0 db0 a db' Hc0 E; now apply (perform_keeps_no_orphans c0 now0 db0 a db')
    | apply body_leaves_the_log; [reflexivity | discriminate]
    | exact Hno ].
Qed.

(** X11.  Telemetry records stay attached to a device row in two
    settings.  On a connection that enforces foreign keys, no run of calls
    whatever leaves a record whose device_id has no row.  On any
    connection, no run of registrations, syncs, heartbeats and queries does:
    only a deletion can leave a record behind. *)
Theorem serve_all_keeps_records_attached (calls : list api_call) (db : database) :
  foreign_keys db = true \/ Forall (fun c => is_delete c = false) calls ->
  no_orphans db -> no_orphans (serve_all calls db).
Proof.
  intros [Hfk|Hcalls] Hno.
  - apply (serve_all_keeps (fun db => foreign_keys db = true /\ no_orphans db));
      [|now split].
    intros A c now db0 a db'. apply perform_keeps_no_orphans_enforced.
  - revert db Hno. unfold serve_all.
    induction Hcalls as [|c calls Hc _ IH]; intros db Hno; cbn [fold_left];
      [exact Hno|].
    apply IH. now apply serve_keeps_no_orphans.
Qed.

(** Without deletions on the connection [initializeSQLite] opens, and
    with a deletion on one that enforces foreign keys. *)
Lemma serve_all_keeps_records_attached_witness :
  let b := mkRegister (Some "dev-1") (Some "Pixel 6") (Some "Google") None None in
  let s := mkSync (Some "dev-1") (Some 85) None None None None None (Some 1000) in
  let enforcing := {| foreign_keys := true; devices := []; devices_seq := 0;
                      device_logs := []; device_logs_seq := 0 |} in
  no_orphans (serve_all [call_register 10 [] b; call_sync 30 [] s] initializeSQLite) /\
  no_orphans (serve_all [call_register 10 [] b; call_sync 30 [] s;
                         call_delete 40 [] "dev-1"] enforcing).
Proof.
  intros b s enforcing. split.
  - apply serve_all_keeps_records_attached; [right; repeat constructor | constructor].
  - apply serve_all_keeps_records_attached; [left; reflexivity | constructor].
Defined.
(** ** After a deletion *)

(** X12.  Once a device is deleted its device_id is unknown again: a
    valid sync for it is answered 404 DEVICE_NOT_FOUND, a second deletion
    404, both without a change, a heartbeat changes nothing, and a
    registration is answered 201 and writes a new row whose first_seen is
    the time of that registration. *)
Theorem deleted_device_is_unknown
    (now now' : datetime) (d m mf : string) (os app : option string)
    (b : sync_body) (db : database) :
  d <> "" -> m <> "" -> mf <> "" ->
  exists_device (Some d) db = true ->
  sync_device_id b = Some d -> deviceSyncValidation b = [] ->
  let db' := snd (deleteDevice now [] d db) in
  syncDeviceData now' [] b db' =
    (not_found "Device not found. Please register first." (Some "DEVICE_NOT_FOUND"),
     db') /\
  deleteDevice now' [] d db' = (not_found "Device not found" None, db') /\
  snd (heartbeat now' [] (Some d) db') = db' /\
  (let again := registerDevice now' []
                  (mkRegister (Some d) (Some m) (Some mf) os app) db' in
   status (fst again) = 201 /\
   device_rows d (snd again) =
     [registered_row (devices_seq db + 1) now' d m mf os app]).
Proof.
  intros Hd Hm Hmf Hold Hb Hval db'. subst db'.
  rewrite deleteDevice_known by assumption. cbn [snd].
  pose proof (without_device_gone d db) as Hgone.
  split; [|split; [|split]].
  - unfold syncDeviceData, try_catch, syncDeviceData_try.
    rewrite Hval, Hb. cbv zeta.
    now rewrite run_await, (perform_select_none _ _ _ Hgone).
  - now apply deleteDevice_unknown.
  - rewrite heartbeat_steps. cbn [hd snd]. now apply update_where_unknown.
  - cbv zeta. rewrite registerDevice_insert by assumption. cbn [fst snd].
    split; [reflexivity|].
    unfold device_rows. cbn [devices without_device devices_seq].
    rewrite filter_app. cbn [filter registered_row device_id].
    rewrite String.eqb_refl.
    assert (E : filter (fun r => String.eqb (device_id r) d)
                  (filter (fun r => negb (String.eqb (device_id r) d)) (devices db)) = []).
    { induction (devices db) as [|r rs IH]; [reflexivity|]. cbn [filter].
      destruct (String.eqb (device_id r) d) eqn:Er; cbn [negb filter]; [exact IH|].
      now rewrite Er. }
    now rewrite E.
Qed.

(** "dev-1" is registered at 10, deleted at 20 and registers again at
    30. *)
Lemma deleted_device_is_unknown_witness :
  let rb := mkRegister (Some "dev-1") (Some "Pixel 6") (Some "Google") None None in
  let db := snd (registerDevice 10 [] rb initializeSQLite) in
  let db' := snd (deleteDevice 20 [] "dev-1" db) in
  status (fst (syncDeviceData 30 []
                 (mkSync (Some "dev-1") None None None None None None (Some 1000))
                 db')) = 404 /\
  map first_seen (device_rows "dev-1" (snd (registerDevice 30 [] rb db'))) = [30].
Proof.
  intros rb db db'.
  assert (N : forall s : string, String.eqb s "" = false -> s <> "")
    by (intros s E; now apply String.eqb_neq).
  destruct (deleted_device_is_unknown 20 30 "dev-1" "Pixel 6" "Google" None None
              (mkSync (Some "dev-1") None None None None None None (Some 1000)) db
              (N "dev-1" eq_refl) (N "Pixel 6" eq_refl) (N "Google" eq_refl)
              eq_refl eq_refl eq_refl) as (Hs & _ & _ & _ & Hr).
  fold db' in Hs, Hr. fold rb in Hr. rewrite Hs, Hr. split; reflexivity.
Defined.

(** ** The page of records of one device *)

Lemma getDeviceDetails_steps now (d : string) (q : list_query) (dv : device) db :
  find (fun r => sql_eq (device_id r) (Some d)) (devices db) = Some dv ->
  let page := or_default (q_page q) 1 in
  let limit := or_default (q_limit q) 100 in
  getDeviceDetails now [] d q db =
    (ok 200 None
       (device_detail dv
          (limit_offset limit ((page - 1) * limit)
             (order_by_desc timestamp (device_records d db)))
          {| pg_page := page; pg_limit := limit;
             pg_total := count (device_records d db);
             pg_pages := Math_ceil_div (count (device_records d db)) limit |}),
     db).
Proof.
  intros Hfind page limit.
  unfold getDeviceDetails, try_catch, getDeviceDetails_try.
  rewrite run_await. cbn [perform]. rewrite Hfind. cbv zeta.
  rewrite run_await. cbn [perform]. rewrite run_await. cbn [perform].
  reflexivity.
Qed.



(** ** Pages, put together *)

Lemma firstn_plus {A : Type} (a b : nat) (l : list A) :
  firstn (a + b) l = firstn a l ++ firstn b (skipn a l).
Proof.
  revert l. induction a as [|a IH]; intro l; [reflexivity|].
  destruct l as [|x l]; cbn [Nat.add firstn skipn app].
  - now rewrite firstn_nil.
  - now rewrite IH.
Qed.

Lemma concat_slices {A : Type} (n k : nat) (l : list A) :
  List.concat (map (fun p => firstn n (skipn ((p - 1) * n) l)) (seq 1 k)) =
  firstn (k * n) l.
Proof.
  induction k as [|k IH]; [reflexivity|].
  rewrite seq_S, map_app, concat_app, IH. cbn [map List.concat Nat.add].
  rewrite app_nil_r.
  replace (S k - 1)%nat with k by lia.
  replace (S k * n)%nat with (k * n + n)%nat by lia.
  now rewrite firstn_plus.
Qed.



(** ** The latest record of a device *)

Lemma descending_head_is_max {A : Type} (key : A -> Z) (x : A) (l : list A) :
  descending key (x :: l) -> forall y, In y (x :: l) -> key y <= key x.
Proof.
  intros H y [<-|Hy]; [lia|].
  inversion H as [|? ? _ Hall]; subst. rewrite Forall_forall in Hall. auto.
Qed.

(** X15.  The latest-log query that [getAllDevices] runs for each device
    answers nothing exactly when the device has no record, and otherwise
    the seven columns of one of the device's records whose timestamp (the
    one the client sent) is the largest among the device's records. *)
Theorem latest_log_is_the_newest (d : string) (db : database) :
  (latest_log_of d db = None <-> device_records d db = []) /\
  (forall ll, latest_log_of d db = Some ll ->
     (exists l, In l (device_records d db) /\ ll = latest_columns l) /\
     (forall l, In l (device_records d db) -> timestamp l <= ll_timestamp ll)).
Proof.
  unfold latest_log_of.
  change (filter (fun l => sql_eq (log_device_id l) (Some d)) (device_logs db))
    with (device_records d db).
  pose proof (order_by_desc_perm timestamp (device_records d db)) as Hperm.
  pose proof (order_by_desc_descending timestamp (device_records d db)) as Hdesc.
  destruct (order_by_desc timestamp (device_records d db)) as [|x sorted].
  - apply Permutation_sym, Permutation_nil in Hperm. rewrite Hperm.
    split; [tauto | discriminate].
  - split.
    + split; [discriminate|]. intro E. rewrite E in Hperm.
      apply Permutation_nil in Hperm. discriminate.
    + intros ll [= <-]. split.
      * exists x. split; [|reflexivity].
        eapply Permutation_in; [apply Permutation_sym, Hperm | now left].
      * intros l Hl. cbn [latest_columns ll_timestamp].
        apply (descending_head_is_max timestamp x sorted Hdesc).
        eapply Permutation_in; eassumption.
Qed.

(** ** What a search matches *)

Lemma like_percent (p t : string) :
  like (String "%" p) t =
  like p t || match t with
              | EmptyString => false
              | String _ t' => like (String "%" p) t'
              end.
Proof. destruct t; reflexivity. Qed.

Lemma like_plain_char (c : ascii) (p t : string) :
  Ascii.eqb c "%" = false -> Ascii.eqb c "_" = false ->
  like (String c p) t =
  match t with
  | EmptyString => false
  | String d t' => eq_nocase c d && like p t'
  end.
Proof. intros H1 H2. cbn [like]. rewrite H1. destruct t; [reflexivity|]. now rewrite H2. Qed.

Lemma like_percent_iff (p t : string) :
  like (String "%" p) t = true <->
  exists pre post, t = (pre ++ post)%string /\ like p post = true.
Proof.
  split.
  - induction t as [|c t IH]; rewrite like_percent; intro H;
      apply orb_true_iff in H; destruct H as [H|H]; try discriminate.
    + exists EmptyString, EmptyString. now split.
    + exists EmptyString, (String c t). now split.
    + destruct (IH H) as (pre & post & -> & Hp).
      exists (String c pre), post. now split.
  - intros (pre & post & -> & Hp). induction pre as [|c pre IH].
    + cbn [String.append]. rewrite like_percent, Hp. reflexivity.
    + cbn [String.append]. rewrite like_percent, IH. apply orb_true_r.
Qed.

Lemma same_nocase_empty (mid : string) :
  same_nocase EmptyString mid = true -> mid = EmptyString.
Proof. destruct mid; [reflexivity | discriminate]. Qed.

Lemma like_plain_prefix (s q t : string) :
  plain s = true ->
  (like (s ++ q)%string t = true <->
   exists mid rest, t = (mid ++ rest)%string /\
                    same_nocase s mid = true /\ like q rest = true).
Proof.
  revert t. induction s as [|c s IH]; intros t Hs.
  - cbn [String.append]. split.
    + intro H. exists EmptyString, t. now repeat split.
    + intros (mid & rest & -> & Hm & Hq).
      apply same_nocase_empty in Hm. now subst.
  - cbn [plain] in Hs. apply andb_true_iff in Hs. destruct Hs as [Hc Hs].
    apply andb_true_iff in Hc. destruct Hc as [Hc1 Hc2].
    apply negb_true_iff in Hc1, Hc2.
    cbn [String.append]. rewrite (like_plain_char c _ t Hc1 Hc2).
    destruct t as [|d t].
    + split; [discriminate|]. intros (mid & rest & E & Hm & _).
      destruct mid; cbn in Hm, E; discriminate.
    + rewrite andb_true_iff, (IH t Hs). split.
      * intros (Hcd & mid & rest & -> & Hm & Hq).
        exists (String d mid), rest. repeat split; [|exact Hq].
        cbn [same_nocase]. now rewrite Hcd, Hm.
      * intros (mid & rest & E & Hm & Hq).
        destruct mid as [|d' mid]; [discriminate|].
        cbn [String.append] in E. injection E as -> ->.
        cbn [same_nocase] in Hm. apply andb_true_iff in Hm.
        destruct Hm as [Hcd Hm]. split; [exact Hcd|]. now exists mid, rest.
Qed.

Lemma like_percent_alone (t : string) : like "%" t = true.
Proof.
  induction t as [|c t IH]; rewrite like_percent; [reflexivity|].
  rewrite IH. apply orb_true_r.
Qed.

Lemma like_contains (s t : string) :
  plain s = true ->
  (like ("%" ++ s ++ "%")%string t = true <-> occurs_nocase s t).
Proof.
  intro Hs. change ("%" ++ s ++ "%")%string with (String "%" (s ++ "%")%string).
  rewrite like_percent_iff. unfold occurs_nocase. split.
  - intros (pre & post & -> & H). apply (like_plain_prefix s "%" post Hs) in H.
    destruct H as (mid & rest & -> & Hm & _). now exists pre, mid, rest.
  - intros (pre & mid & post & -> & Hm). exists pre, (mid ++ post)%string.
    split; [reflexivity|]. apply (like_plain_prefix s "%" _ Hs).
    exists mid, post. repeat split; [exact Hm | apply like_percent_alone].
Qed.

(** X16.  A search text without [%] and [_] selects by occurrence up to
    ASCII case: a device is matched by a non-empty such text (and status
    "all") exactly when the text occurs, letters compared without case, in
    its device_id, its model or its manufacturer. *)
Theorem search_matches_occurrences (search : string) (db : database) (r : device) :
  search <> "" -> plain search = true ->
  (In r (matched search "all" db) <->
   In r (devices db) /\
   (occurs_nocase search (device_id r) \/ occurs_nocase search (model r) \/
    occurs_nocase search (manufacturer r))).
Proof.
  intros Hne Hplain. unfold matched. rewrite filter_In.
  unfold whereClause, where_holds. cbn [like_pattern is_active_is].
  rewrite (nonempty_neqb search Hne). change (String.eqb "all" "all") with true.
  cbv iota. rewrite andb_true_r, !orb_true_iff, !(like_contains search _ Hplain).
  tauto.
Qed.

(** A search for "pix" finds the "Pixel 6". *)
Lemma search_matches_occurrences_witness :
  let db := snd (registerDevice 10 []
                   (mkRegister (Some "dev-1") (Some "Pixel 6") (Some "Google")
                      None None) initializeSQLite) in
  let r := registered_row 1 10 "dev-1" "Pixel 6" "Google" None None in
  devices db = [r] /\ In r (matched "pix" "all" db).
Proof.
  intros db r. split; [reflexivity|].
  apply (search_matches_occurrences "pix" db r); [discriminate | reflexivity |].
  split; [left; reflexivity|]. right. left.
  exists "", "Pix", "el 6". split; reflexivity.
Defined.

(** X17.  The search text goes into the LIKE pattern as it is, so its
    [%] and [_] act as wildcards: a search for "%" matches the same devices
    as no search at all, and a search for "_" matches a text exactly when
    the text is not empty. *)
Theorem search_wildcards_are_not_escaped (st : string) (db : database) (t : string) :
  matched "%" st db = matched "" st db /\
  (like ("%" ++ "_" ++ "%")%string t = true <-> t <> "").
Proof.
  split.
  - unfold matched. apply filter_ext. intro r.
    unfold whereClause, where_holds. cbn [like_pattern is_active_is].
    change (String.eqb "%" "") with false. change (String.eqb "" "") with true.
    cbv iota.
    assert (H : forall s, like ("%" ++ "%" ++ "%")%string s = true).
    { intro s. change ("%" ++ "%" ++ "%")%string with (String "%" "%%").
      apply like_percent_iff. exists EmptyString, s. split; [reflexivity|].
      apply like_percent_iff. exists EmptyString, s. split; [reflexivity|].
      apply like_percent_alone. }
    now rewrite !H.
  - change ("%" ++ "_" ++ "%")%string with (String "%" "_%").
    rewrite like_percent_iff. split.
    + intros (pre & post & -> & H). destruct post as [|c post]; [discriminate|].
      destruct pre; discriminate.
    + intro Hne. destruct t as [|c t]; [contradiction|].
      exists EmptyString, (String c t). split; [reflexivity|].
      cbn [like]. change (Ascii.eqb "_" "%") with false.
      change (Ascii.eqb "_" "_") with true. cbn. apply like_percent_alone.
Qed.
(** ** Statistics *)

Lemma count_filter_bounds {A : Type} (f : A -> bool) (l : list A) :
  0 <= count (filter f l) <= count l.
Proof. unfold count. pose proof (length_filter_le f l). lia. Qed.

Lemma getDeviceStats_ok now db :
  getDeviceStats now [] db =
    (200, Some {| total_devices := answer count_all_devices now db;
                  active_devices := answer count_devices_seen_24h now db;
                  total_logs := answer count_all_logs now db;
                  recent_logs := answer count_logs_created_24h now db;
                  devices_by_manufacturer := answer count_by_manufacturer now db |}).
Proof. reflexivity. Qed.

(** X18.  [getDeviceStats] answers 500 without data as soon as the
    storage fails under one of its five statements.  Otherwise it answers
    200 and: total_devices is the number of device rows, the same number a
    list query without filters reports as total; active_devices is the
    number of devices whose last_seen lies within the 24 hours before the
    query, whatever their is_active flag, and is at most total_devices;
    recent_logs is the number of records created within these 24 hours and
    is at most total_logs. *)
Theorem getDeviceStats_counts (now : datetime) (faults : list bool) (db : database) :
  let out := getDeviceStats now faults db in
  if existsb (fun f => f) (firstn 5 faults) then out = (500, None)
  else
    exists s, out = (200, Some s) /\
      total_devices s = Z.of_nat (List.length (devices db)) /\
      returned_total (fst (getAllDevices now [] (mkQuery None None None None) db))
        = Some (total_devices s) /\
      active_devices s =
        Z.of_nat (List.length (filter (fun r => now - 86400 <=? last_seen r)
                                 (devices db))) /\
      0 <= active_devices s <= total_devices s /\
      total_logs s = Z.of_nat (List.length (device_logs db)) /\
      0 <= recent_logs s <= total_logs s.
Proof.
  intro out. subst out.
  assert (Hok : exists s, getDeviceStats now [] db = (200, Some s) /\
      total_devices s = Z.of_nat (List.length (devices db)) /\
      returned_total (fst (getAllDevices now [] (mkQuery None None None None) db))
        = Some (total_devices s) /\
      active_devices s =
        Z.of_nat (List.length (filter (fun r => now - 86400 <=? last_seen r)
                                 (devices db))) /\
      0 <= active_devices s <= total_devices s /\
      total_logs s = Z.of_nat (List.length (device_logs db)) /\
      0 <= recent_logs s <= total_logs s).
  { eexists. split; [apply getDeviceStats_ok|].
    cbn [total_devices active_devices total_logs recent_logs answer].
    split; [reflexivity|]. split.
    - rewrite getAllDevices_steps. unfold returned_total, ok. cbn [fst data pg_total].
      do 2 f_equal. unfold matched. cbn.
      induction (devices db) as [|r rs IH]; [reflexivity|]. cbn. now rewrite IH.
    - split; [reflexivity|]. split; [apply count_filter_bounds|].
      split; [reflexivity | apply count_filter_bounds]. }
  destruct faults as [|[] [|[] [|[] [|[] [|[] ?]]]]]; cbn [firstn existsb orb];
    try reflexivity; exact Hok.
Qed.

(** ** The manufacturers *)

Lemma group_size_at_least_1 (k : string) (keys : list string) :
  In k keys -> 1 <= group_size k keys.
Proof.
  intro H. unfold group_size, count.
  assert (Hin : In k (filter (String.eqb k) keys)).
  { apply filter_In. split; [exact H | apply String.eqb_refl]. }
  destruct (filter (String.eqb k) keys); [contradiction|]. cbn [List.length]. lia.
Qed.

Lemma group_count_keys (keys : list string) :
  map fst (group_count keys) = nodup string_dec keys.
Proof. unfold group_count. rewrite map_map. cbn [fst]. apply map_id. Qed.

Lemma group_count_in (keys : list string) (k : string) (n : Z) :
  In (k, n) (group_count keys) <-> In k keys /\ n = group_size k keys.
Proof.
  unfold group_count. rewrite in_map_iff. split.
  - intros (k' & [= -> <-] & Hin). apply nodup_In in Hin. now split.
  - intros [Hin ->]. exists k. split; [reflexivity | now apply nodup_In].
Qed.

Lemma descending_split {A : Type} (key : A -> Z) (l1 l2 : list A) :
  descending key (l1 ++ l2) ->
  forall x y, In x l1 -> In y l2 -> key y <= key x.
Proof.
  unfold descending. induction l1 as [|a l1 IH]; cbn [app]; intros H x y Hx Hy;
    [contradiction|].
  inversion H as [|? ? Hrest Hall]; subst. destruct Hx as [<-|Hx].
  - rewrite Forall_forall in Hall. apply Hall. apply in_or_app. now right.
  - now apply IH.
Qed.

Lemma descending_firstn {A : Type} (key : A -> Z) (n : nat) (l : list A) :
  descending key l -> descending key (firstn n l).
Proof.
  unfold descending. revert n. induction l as [|a l IH]; intros n H.
  - now rewrite firstn_nil.
  - destruct n as [|n]; [constructor|]. cbn [firstn].
    inversion H as [|? ? Hrest Hall]; subst. constructor; [now apply IH|].
    rewrite Forall_forall in *. intros x Hx. apply Hall.
    rewrite <- (firstn_skipn n l). apply in_or_app. now left.
Qed.

Lemma NoDup_map_firstn {A B : Type} (f : A -> B) (n : nat) (l : list A) :
  NoDup (map f l) -> NoDup (map f (firstn n l)).
Proof.
  intro H. rewrite <- (firstn_skipn n l), map_app in H.
  now apply NoDup_app_remove_r in H.
Qed.

(** X19.  The devices_by_manufacturer of a statistics answer lists at
    most ten manufacturers, each once, by decreasing number of devices;
    the number beside a manufacturer is the number of device rows with that
    manufacturer and is at least 1; and a manufacturer that has devices but
    is not listed has at most as many devices as every listed one. *)
Theorem devices_by_manufacturer_top_ten
    (now : datetime) (db : database) (s : device_stats) :
  getDeviceStats now [] db = (200, Some s) ->
  let top := devices_by_manufacturer s in
  let devices_of m := group_size m (map manufacturer (devices db)) in
  (List.length top <= 10)%nat /\
  NoDup (map fst top) /\
  descending snd top /\
  (forall m n, In (m, n) top -> n = devices_of m /\ 1 <= n) /\
  (forall r, In r (devices db) -> ~ In (manufacturer r) (map fst top) ->
     forall m n, In (m, n) top -> devices_of (manufacturer r) <= n).
Proof.
  rewrite getDeviceStats_ok. intros [= <-] top devices_of. subst top.
  cbn [devices_by_manufacturer answer]. unfold limit_offset.
  change (10 <? 0) with false. cbv iota. change (Z.to_nat 0) with 0%nat.
  change (Z.to_nat 10) with 10%nat. cbn [skipn].
  set (keys := map manufacturer (devices db)).
  set (sorted := order_by_desc snd (group_count keys)).
  pose proof (order_by_desc_perm snd (group_count keys)) as Hperm. fold sorted in Hperm.
  pose proof (order_by_desc_descending snd (group_count keys)) as Hdesc.
  fold sorted in Hdesc.
  assert (Hsub : forall x, In x (firstn 10 sorted) -> In x (group_count keys)).
  { intros x Hx. apply (Permutation_in _ (Permutation_sym Hperm)).
    rewrite <- (firstn_skipn 10 sorted). apply in_or_app. now left. }
  split; [apply firstn_le_length|]. split; [|split; [|split]].
  - apply NoDup_map_firstn.
    apply (Permutation_NoDup (Permutation_map fst Hperm)).
    rewrite group_count_keys. apply NoDup_nodup.
  - now apply descending_firstn.
  - intros m n Hin. apply Hsub, group_count_in in Hin. destruct Hin as [Hm ->].
    split; [reflexivity | now apply group_size_at_least_1].
  - intros r Hr Hout m n Hin.
    assert (Hall : In (manufacturer r, devices_of (manufacturer r)) sorted).
    { apply (Permutation_in _ Hperm). apply group_count_in. split; [|reflexivity].
      unfold keys. now apply in_map. }
    rewrite <- (firstn_skipn 10 sorted) in Hall, Hdesc.
    apply in_app_or in Hall. destruct Hall as [Hall|Hall].
    + exfalso. apply Hout. apply in_map_iff.
      exists (manufacturer r, devices_of (manufacturer r)). now split.
    + apply (descending_split snd _ _ Hdesc (m, n) _ Hin Hall).
Qed.

(** Two devices by Google, one by Samsung. *)
Lemma devices_by_manufacturer_top_ten_witness :
  let reg d mf t := call_register t []
                      (mkRegister (Some d) (Some "Phone") (Some mf) None None) in
  let db := serve_all [reg "dev-1" "Samsung" 10; reg "dev-2" "Google" 20;
                       reg "dev-3" "Google" 30] initializeSQLite in
  exists s, getDeviceStats 40 [] db = (200, Some s) /\
            descending snd (devices_by_manufacturer s) /\
            devices_by_manufacturer s = [("Google", 2); ("Samsung", 1)].
Proof.
  intros reg db. eexists. split; [apply getDeviceStats_ok|]. split.
  - apply (devices_by_manufacturer_top_ten 40 db _ (getDeviceStats_ok 40 db)).
  - reflexivity.
Defined.
(** ** The dashboard's helpers *)

Lemma descending_map {A B : Type} (f : A -> B) (key : B -> Z) (l : list A) :
  descending (fun x => key (f x)) l -> descending key (map f l).
Proof.
  unfold descending. induction 1 as [|x l _ IH Hall]; cbn [map]; constructor;
    [exact IH | now apply Forall_map].
Qed.

Lemma matched_everything (db : database) : matched "" "all" db = devices db.
Proof.
  unfold matched.
  rewrite (filter_ext (where_holds (whereClause "" "all")) (fun _ => true))
    by (intro; reflexivity).
  generalize (devices db). intro l.
  induction l as [|r rs IH]; [reflexivity|]. cbn. now rewrite IH.
Qed.

(** X20.  The dashboard's [getStats] returns four zeros as soon as the
    storage fails under one of its four statements, which is also what it
    returns for an empty fleet.  Otherwise totalDevices is the number of
    device rows, activeDevices is the active_devices of [getDeviceStats]
    and at most totalDevices, newDevicesToday is at most totalDevices and
    logsToday at most the number of records. *)
Theorem getStats_counts (now : datetime) (faults : list bool) (db : database) :
  let s := getStats now faults db in
  if existsb (fun f => f) (firstn 4 faults)
  then s = {| totalDevices := 0; activeDevices := 0;
              logsToday := 0; newDevicesToday := 0 |}
  else
    totalDevices s = Z.of_nat (List.length (devices db)) /\
    option_map active_devices (snd (getDeviceStats now [] db)) = Some (activeDevices s) /\
    0 <= activeDevices s <= totalDevices s /\
    0 <= newDevicesToday s <= totalDevices s /\
    0 <= logsToday s <= Z.of_nat (List.length (device_logs db)).
Proof.
  intro s. subst s.
  assert (Hok : let s := getStats now [] db in
    totalDevices s = Z.of_nat (List.length (devices db)) /\
    option_map active_devices (snd (getDeviceStats now [] db)) = Some (activeDevices s) /\
    0 <= activeDevices s <= totalDevices s /\
    0 <= newDevicesToday s <= totalDevices s /\
    0 <= logsToday s <= Z.of_nat (List.length (device_logs db))).
  { cbn. repeat split; try apply count_filter_bounds. }
  destruct faults as [|[] [|[] [|[] [|[] ?]]]]; cbn [firstn existsb orb];
    try reflexivity; exact Hok.
Qed.

(** X21.  The dashboard's [getRecentDevices] returns the empty list when
    the storage fails.  Otherwise it returns at most ten devices, by
    decreasing last_seen: the five columns of exactly the devices that the
    first page of a list query with limit 10 and no filter returns. *)
Theorem getRecentDevices_is_first_page (now : datetime) (faults : list bool)
    (db : database) :
  let recent := getRecentDevices now faults db in
  if hd false faults then recent = []
  else
    recent =
      map recent_columns
        (returned_devices
           (fst (getAllDevices now [] (mkQuery (Some 1) (Some 10) None None) db))) /\
    (List.length recent <= 10)%nat /\
    descending rd_last_seen recent.
Proof.
  intro recent. subst recent.
  assert (Hok : getRecentDevices now [] db =
                map recent_columns (firstn 10 (order_by_desc last_seen (devices db))))
    by reflexivity.
  pose proof (matched_everything db) as Hall.
  assert (Hgoal :
    getRecentDevices now [] db =
      map recent_columns
        (returned_devices
           (fst (getAllDevices now [] (mkQuery (Some 1) (Some 10) None None) db))) /\
    (List.length (getRecentDevices now [] db) <= 10)%nat /\
    descending rd_last_seen (getRecentDevices now [] db)).
  { rewrite Hok. split; [|split].
    - rewrite getAllDevices_steps. unfold returned_devices, ok.
      cbn [fst data q_page q_limit q_search q_status or_default].
      rewrite !map_map. cbn [fst]. rewrite Hall. reflexivity.
    - rewrite length_map. apply firstn_le_length.
    - apply descending_map. cbn [recent_columns rd_last_seen].
      apply descending_firstn, order_by_desc_descending. }
  destruct faults as [|[] ?]; cbn [hd]; [exact Hgoal | reflexivity | exact Hgoal].
Qed.

(** ** A sync, then the statistics *)

(** X22.  A sync shows in the statistics.  After a successful sync of a
    registered device at time [now], the statistics asked at [now'] within
    the next 24 hours count one record more than before it and the same
    number of devices, and count at least one active device and at least
    one recent record. *)
Theorem sync_shows_in_statistics
    (now now' : datetime) (d : string) (b : sync_body) (db : database) :
  exists_device (Some d) db = true ->
  sync_device_id b = Some d -> deviceSyncValidation b = [] ->
  now <= now' <= now + 86400 ->
  let db' := snd (syncDeviceData now [] b db) in
  exists s0 s,
    getDeviceStats now' [] db = (200, Some s0) /\
    getDeviceStats now' [] db' = (200, Some s) /\
    total_logs s = total_logs s0 + 1 /\
    total_devices s = total_devices s0 /\
    1 <= active_devices s /\ 1 <= recent_logs s.
Proof.
  intros Hold Hd Hval Hnow db'. subst db'.
  destruct (sync_valid_timestamp b Hval) as [ts Hts].
  rewrite (syncDeviceData_ok now b d ts db Hd Hts Hval Hold). cbn [snd].
  do 2 eexists. split; [apply getDeviceStats_ok|]. split; [apply getDeviceStats_ok|].
  cbn [total_logs total_devices active_devices recent_logs answer
       update_where set_devices with_log devices device_logs].
  unfold count. split; [|split; [|split]].
  - rewrite length_app. cbn [List.length]. lia.
  - now rewrite length_map.
  - unfold exists_device in Hold. apply existsb_exists in Hold.
    destruct Hold as (r & Hr & Er).
    assert (Hin : In (seen_active now r)
                    (filter (fun r => within_24h now' (last_seen r))
                       (map (fun r => if sql_eq (device_id r) (Some d)
                                      then seen_active now r else r) (devices db)))).
    { apply filter_In. split.
      - apply in_map_iff. exists r. now rewrite Er.
      - unfold within_24h. cbn [seen_active last_seen]. apply Z.leb_le. lia. }
    destruct (filter _ _); [contradiction|]. cbn [List.length]. lia.
  - rewrite filter_app, length_app. cbn [filter log_row log_created_at].
    unfold within_24h. destruct (Z.leb_spec (now' - 86400) now); [|lia].
    cbn [List.length]. lia.
Qed.

(** "dev-1" syncs at 30; the statistics are asked an hour later. *)
Lemma sync_shows_in_statistics_witness :
  let db := snd (registerDevice 10 []
                   (mkRegister (Some "dev-1") (Some "Pixel 6") (Some "Google")
                      None None) initializeSQLite) in
  let b := mkSync (Some "dev-1") (Some 85) None None None None None (Some 1000) in
  exists s, getDeviceStats 3630 [] (snd (syncDeviceData 30 [] b db)) = (200, Some s) /\
            total_logs s = 1 /\ 1 <= active_devices s.
Proof.
  intros db b.
  destruct (sync_shows_in_statistics 30 3630 "dev-1" b db eq_refl eq_refl eq_refl)
    as (s0 & s & H0 & H & Hlogs & _ & Hact & _); [lia|].
  exists s. split; [exact H|]. split; [|exact Hact].
  rewrite Hlogs. rewrite getDeviceStats_ok in H0. injection H0 as <-. reflexivity.
Defined.
(** ** Operator accounts *)

Lemma prefix_append (p t : string) : String.prefix p (p ++ t)%string = true.
Proof.
  induction p as [|c p IH]; [now destruct t|].
  cbn [String.append String.prefix]. destruct (ascii_dec c c); [exact IH|congruence].
Qed.

Lemma drop_append (p t : string) : drop (String.length p) (p ++ t)%string = t.
Proof. induction p as [|c p IH]; [now destruct t | exact IH]. Qed.

Lemma replace_first_unfold (pat rep s : string) :
  replace_first pat rep s =
  if String.prefix pat s then (rep ++ drop (String.length pat) s)%string
  else
    match s with
    | EmptyString => EmptyString
    | String c s' => String c (replace_first pat rep s')
    end.
Proof. destruct s; reflexivity. Qed.

Lemma bearer_token (tok : string) : bearer (Some ("Bearer " ++ tok)%string) = Some tok.
Proof.
  unfold bearer. cbn [option_map]. f_equal.
  rewrite replace_first_unfold, prefix_append, drop_append. reflexivity.
Qed.

Lemma NoDup_map_same {A B : Type} (f : A -> B) (l : list A) (x y : A) :
  NoDup (map f l) -> In x l -> In y l -> f x = f y -> x = y.
Proof.
  induction l as [|a l IH]; cbn [map In]; [tauto|].
  intros Hnd Hx Hy E. inversion Hnd as [|? ? Ha Hl]; subst.
  destruct Hx as [<-|Hx], Hy as [<-|Hy]; auto.
  - exfalso. apply Ha. rewrite E. now apply in_map.
  - exfalso. apply Ha. rewrite <- E. now apply in_map.
Qed.

Section CryptoFacts.

Variable bcrypt_compare : string -> string -> bool.
Variable bcrypt_hash : string -> string.
Variable jwt_sign : Z -> string -> datetime -> string.
Variable jwt_verify : string -> datetime -> jwt_outcome.

Lemma login_validation (name password : option string) :
  notEmpty name "Username is required" ++ notEmpty password "Password is required" = []
  <-> truthy name = true /\ truthy password = true.
Proof.
  rewrite <- !notEmpty_nil. split.
  - intro H. now apply app_eq_nil in H.
  - intros [-> ->]. reflexivity.
Qed.

Lemma login_cases
    (now : datetime) (faults : list bool) (name password : option string)
    (t : admin_table) :
  let out := login bcrypt_compare jwt_sign now faults name password t in
  (lr_status (fst out) = 200 <->
   truthy name = true /\ truthy password = true /\
   nth 0 faults false = false /\ nth 1 faults false = false /\
   exists u, admin_by_username name t = Some u /\ au_is_active u = true /\
             bcrypt_compare (or_default password "") (password_hash u) = true) /\
  (lr_status (fst out) = 200 ->
   exists u, admin_by_username name t = Some u /\
     lr_token (fst out) = Some (jwt_sign (au_id u) (username u) now) /\
     lr_user (fst out) = Some (au_id u, username u) /\
     snd out = touch_last_login now (au_id u) t) /\
  (lr_status (fst out) <> 200 -> snd out = t /\ lr_token (fst out) = None).
Proof.
  intro out. subst out. unfold login.
  destruct (notEmpty name _ ++ notEmpty password _) as [|e es] eqn:Hval.
  - apply login_validation in Hval. destruct Hval as [Hn Hp].
    destruct (nth 0 faults false) eqn:F0; cbn [fst snd lr_status login_refused].
    { split; [|split]; [split; [discriminate|] | discriminate | now split].
      intros (_ & _ & H & _). discriminate. }
    destruct (admin_by_username name t) as [u|] eqn:Hu;
      cbn [fst snd lr_status login_refused].
    2:{ split; [|split]; [split; [discriminate|] | discriminate | now split].
        intros (_ & _ & _ & _ & u & H & _). discriminate. }
    destruct (au_is_active u) eqn:Ha; cbn [negb fst snd lr_status login_refused].
    2:{ split; [|split]; [split; [discriminate|] | discriminate | now split].
        intros (_ & _ & _ & _ & u' & [= <-] & H & _). congruence. }
    destruct (bcrypt_compare _ _) eqn:Hc; cbn [negb fst snd lr_status login_refused].
    2:{ split; [|split]; [split; [discriminate|] | discriminate | now split].
        intros (_ & _ & _ & _ & u' & [= <-] & _ & H). congruence. }
    destruct (nth 1 faults false) eqn:F1; cbn [fst snd lr_status login_refused].
    { split; [|split]; [split; [discriminate|] | discriminate | now split].
      intros (_ & _ & _ & H & _). discriminate. }
    split; [|split].
    + split; [|reflexivity]. intros _. repeat split; try assumption.
      exists u. now repeat split.
    + intros _. exists u. now repeat split.
    + intro H. contradiction.
  - cbn [fst snd lr_status]. split; [|split]; [split; [discriminate|] | discriminate | now split].
    intros (Hn & Hp & _).
    assert (H : notEmpty name "Username is required" ++
                notEmpty password "Password is required" = [])
      by (apply login_validation; now split).
    congruence.
Qed.

(** X23.  [login] answers 200 exactly when username and password are
    non-empty, the storage works under its two statements, the username
    has an account, the account is active and the password matches its
    hash.  It then returns the token signed for the account's id and
    username, and the only change is the account's last_login, set to the
    time of the call.  Every other answer carries no token and leaves the
    accounts as they were. *)
Theorem login_succeeds_exactly_when
    (now : datetime) (faults : list bool) (name password : option string)
    (t : admin_table) :
  let out := login bcrypt_compare jwt_sign now faults name password t in
  (lr_status (fst out) = 200 <->
   truthy name = true /\ truthy password = true /\
   nth 0 faults false = false /\ nth 1 faults false = false /\
   exists u, admin_by_username name t = Some u /\ au_is_active u = true /\
             bcrypt_compare (or_default password "") (password_hash u) = true) /\
  (lr_status (fst out) = 200 ->
   exists u, admin_by_username name t = Some u /\
     lr_token (fst out) = Some (jwt_sign (au_id u) (username u) now) /\
     lr_user (fst out) = Some (au_id u, username u) /\
     snd out = touch_last_login now (au_id u) t) /\
  (lr_status (fst out) <> 200 -> snd out = t /\ lr_token (fst out) = None).
Proof. apply login_cases. Qed.

(** X24.  What [login] gives away.  For a username without an account
    and for an active account with a wrong password it answers the same:
    401 "Invalid credentials".  For a disabled account it answers 401
    "Account is disabled" whatever the password, right or wrong.  None of
    these calls changes the accounts. *)
Theorem login_refusals
    (now : datetime) (password : string) (unknown wrong disabled : string)
    (u d : admin_user) (t : admin_table) :
  password <> "" -> unknown <> "" -> wrong <> "" -> disabled <> "" ->
  admin_by_username (Some unknown) t = None ->
  admin_by_username (Some wrong) t = Some u -> au_is_active u = true ->
  bcrypt_compare password (password_hash u) = false ->
  admin_by_username (Some disabled) t = Some d -> au_is_active d = false ->
  let try_with name := login bcrypt_compare jwt_sign now [] (Some name)
                         (Some password) t in
  try_with unknown = (login_refused 401 "Invalid credentials", t) /\
  try_with wrong = (login_refused 401 "Invalid credentials", t) /\
  try_with disabled = (login_refused 401 "Account is disabled", t).
Proof.
  intros Hp Hn1 Hn2 Hn3 Hunk Hw Hwa Hwc Hd Hda try_with. subst try_with.
  unfold login, notEmpty.
  rewrite !nonempty_neqb by assumption. cbn [app nth or_default].
  rewrite Hunk, Hw, Hd, Hwa, Hda, Hwc. now repeat split.
Qed.

Lemma find_by_id_touched now (i : Z) (t : admin_table) (u : admin_user) :
  NoDup (map au_id (admin_users t)) -> In u (admin_users t) -> au_id u = i ->
  exists u', admin_by_id (Some i) (touch_last_login now i t) = Some u' /\
             au_id u' = i /\ username u' = username u /\
             au_is_active u' = au_is_active u /\ last_login u' = Some now.
Proof.
  unfold admin_by_id, touch_last_login. cbn [admin_users].
  induction (admin_users t) as [|a l IH]; cbn [map In find]; [tauto|].
  intros Hnd Hin Hi. inversion Hnd as [|? ? Ha Hl]; subst.
  destruct (Z.eqb_spec (au_id a) (au_id u)) as [E|E].
  - assert (a = u) as ->.
    { destruct Hin as [->|Hin]; [reflexivity|]. exfalso. apply Ha. rewrite E.
      now apply in_map. }
    cbn [au_id]. rewrite Z.eqb_refl. eexists. split; [reflexivity|]. now repeat split.
  - destruct Hin as [->|Hin]; [contradiction|].
    destruct (Z.eqb_spec (au_id a) (au_id u)); [contradiction|]. now apply IH.
Qed.

Lemma requireAuth_bearer now faults (tok : string) (cookie query : option string) t :
  tok <> "" ->
  requireAuth jwt_verify now faults (Some ("Bearer " ++ tok)%string) cookie query t =
  checked_user jwt_verify now faults tok t.
Proof.
  intro Htok. unfold requireAuth. rewrite bearer_token.
  assert (Ht : truthy (Some tok) = true)
    by (unfold truthy; now rewrite (nonempty_neqb tok Htok)).
  unfold js_or at 2. rewrite Ht. unfold js_or. now rewrite !Ht.
Qed.

(** X25.  [requireAuth] takes the token from the Authorization header
    when that holds "Bearer " and a non-empty token: the cookie and the
    query parameter are then not looked at.  With a token that verifies
    and names an account id, the request is let through exactly when the
    storage works and that id has an active account: the account of a
    token that still verifies is refused with 401 "Invalid or expired
    token" once it is disabled or removed. *)
Theorem requireAuth_checks_the_account
    (now : datetime) (faults : list bool) (tok : string) (i : Z)
    (cookie query : option string) (t : admin_table) :
  tok <> "" ->
  jwt_verify tok now = jwt_payload (Some i) ->
  let res := requireAuth jwt_verify now faults
               (Some ("Bearer " ++ tok)%string) cookie query t in
  res = requireAuth jwt_verify now faults (Some ("Bearer " ++ tok)%string)
          None None t /\
  ((exists u, res = authenticated u) <->
   hd false faults = false /\
   exists u, admin_by_id (Some i) t = Some u /\ au_is_active u = true) /\
  (hd false faults = false ->
   (forall u, admin_by_id (Some i) t = Some u -> au_is_active u = false) ->
   res = refused 401 "Invalid or expired token").
Proof.
  intros Htok Hjwt res. subst res. rewrite !requireAuth_bearer by assumption.
  unfold checked_user. rewrite Hjwt.
  split; [reflexivity|]. destruct (hd false faults).
  - split; [|discriminate]. split.
    + intros [u Hu]. discriminate.
    + intros [H _]. discriminate.
  - destruct (admin_by_id (Some i) t) as [u|].
    + destruct (au_is_active u) eqn:Ha.
      * split.
        -- split; [intros _; split; [reflexivity|]; now exists u | intros _; now exists u].
        -- intros _ H. specialize (H u eq_refl). congruence.
      * split; [|reflexivity]. split.
        -- intros [u' Hu']. discriminate.
        -- intros (_ & u' & [= <-] & H). congruence.
    + split; [|reflexivity]. split.
      * intros [u' Hu']. discriminate.
      * intros (_ & u' & H & _). discriminate.
Qed.

(** X26.  The token [login] hands out opens [requireAuth].  If the ids of
    the accounts are pairwise different and, for each account, the token
    signed at [now] for its id and username is non-empty and verifies at
    [now'] as a payload with that id, then after a login answered 200 the
    request that carries the returned token as "Bearer" token is let
    through, as the account of that login, whose last_login is now the time
    of the login. *)
Theorem login_token_opens_requireAuth
    (now now' : datetime) (name password : option string) (t : admin_table) :
  NoDup (map au_id (admin_users t)) ->
  (forall u, In u (admin_users t) ->
     jwt_sign (au_id u) (username u) now <> "" /\
     jwt_verify (jwt_sign (au_id u) (username u) now) now' =
       jwt_payload (Some (au_id u))) ->
  let out := login bcrypt_compare jwt_sign now [] name password t in
  lr_status (fst out) = 200 ->
  exists tok u,
    lr_token (fst out) = Some tok /\
    requireAuth jwt_verify now' [] (Some ("Bearer " ++ tok)%string) None None (snd out)
      = authenticated u /\
    lr_user (fst out) = Some (au_id u, username u) /\
    last_login u = Some now.
Proof.
  intros Hnd Hjwt out H200.
  destruct (login_cases now [] name password t) as (Hiff & Hok & _).
  fold out in Hiff, Hok.
  destruct (proj1 Hiff H200) as (_ & _ & _ & _ & u0 & Hu0 & Ha0 & _).
  destruct (Hok H200) as (u & Hu & Htok & Huser & Ht).
  assert (u0 = u) by congruence. subst u0.
  unfold admin_by_username in Hu. apply find_some in Hu. destruct Hu as [Hin _].
  destruct (Hjwt u Hin) as [Hne Hver].
  destruct (find_by_id_touched now (au_id u) t u Hnd Hin eq_refl)
    as (u' & Hfind & Hid & Hname & Hact & Hlast).
  exists (jwt_sign (au_id u) (username u) now), u'.
  split; [exact Htok|]. split; [|split; [|exact Hlast]].
  - rewrite Ht, requireAuth_bearer by assumption.
    unfold checked_user. rewrite Hver. cbn [hd]. rewrite Hfind, Hact, Ha0.
    reflexivity.
  - now rewrite Huser, Hid, Hname.
Qed.

(** X27.  [optionalAuth] sets [req.user] exactly when [requireAuth] lets
    the same request, without its query parameter, through, and to the
    same account; whatever makes [requireAuth] answer (no token, a bad or
    expired token, a disabled account, a storage failure) makes
    [optionalAuth] go on without a user. *)
Theorem optionalAuth_follows_requireAuth
    (now : datetime) (faults : list bool) (authorization cookie : option string)
    (t : admin_table) :
  optionalAuth jwt_verify now faults authorization cookie t =
  match requireAuth jwt_verify now faults authorization cookie None t with
  | authenticated u => Some u
  | refused _ _ => None
  end.
Proof.
  unfold optionalAuth, requireAuth.
  set (tok := js_or (bearer authorization) cookie).
  assert (H : js_or tok None = if truthy tok then tok else None) by reflexivity.
  rewrite H. destruct (truthy tok) eqn:E.
  - rewrite E. reflexivity.
  - reflexivity.
Qed.

Lemma find_username_app (name : string) (l : list admin_user) (a : admin_user) :
  find (fun u => sql_eq (username u) (Some name)) l = None ->
  username a = name ->
  find (fun u => sql_eq (username u) (Some name)) (l ++ [a]) = Some a.
Proof.
  intros Hnone Ha. induction l as [|x l IH]; cbn [app find sql_eq] in *.
  - now rewrite Ha, String.eqb_refl.
  - destruct (String.eqb (username x) name); [discriminate | now apply IH].
Qed.

Lemma find_none_existsb (name : string) (l : list admin_user) :
  find (fun u => sql_eq (username u) (Some name)) l = None ->
  existsb (fun u => String.eqb (username u) name) l = false.
Proof.
  induction l as [|x l IH]; cbn [find existsb sql_eq]; [reflexivity|].
  destruct (String.eqb (username x) name); [discriminate | exact IH].
Qed.

Lemma createDefaultAdmin_cases
    (now now' : datetime) (faults' : list bool)
    (ADMIN_USERNAME ADMIN_PASSWORD ADMIN_PASSWORD' : option string)
    (t : admin_table) :
  let name := or_default (js_or ADMIN_USERNAME (Some "admin")) "admin" in
  let password := or_default (js_or ADMIN_PASSWORD (Some "admin123")) "admin123" in
  let t1 := createDefaultAdmin bcrypt_hash now [] ADMIN_USERNAME ADMIN_PASSWORD t in
  (forall u, admin_by_username (Some name) t = Some u -> t1 = t) /\
  (admin_by_username (Some name) t = None ->
   admin_users t1 = admin_users t ++
     [ {| au_id := admin_users_seq t + 1; username := name;
          password_hash := bcrypt_hash password; email := None;
          au_is_active := true; last_login := None;
          au_created_at := now; au_updated_at := now |} ]) /\
  createDefaultAdmin bcrypt_hash now' faults' ADMIN_USERNAME ADMIN_PASSWORD' t1 = t1 /\
  createDefaultAdmin bcrypt_hash now [true] ADMIN_USERNAME ADMIN_PASSWORD t = t /\
  createDefaultAdmin bcrypt_hash now [false; true] ADMIN_USERNAME ADMIN_PASSWORD t = t.
Proof.
  intros name password t1.
  assert (Hkeep : forall nw fs P t0 u,
            admin_by_username (Some name) t0 = Some u ->
            createDefaultAdmin bcrypt_hash nw fs ADMIN_USERNAME P t0 = t0).
  { intros nw fs P t0 u Hu. unfold createDefaultAdmin. fold name. rewrite Hu.
    now destruct (nth 0 fs false). }
  assert (Hadd : admin_by_username (Some name) t = None ->
            t1 = {| admin_users := admin_users t ++
                      [ {| au_id := admin_users_seq t + 1; username := name;
                           password_hash := bcrypt_hash password; email := None;
                           au_is_active := true; last_login := None;
                           au_created_at := now; au_updated_at := now |} ];
                    admin_users_seq := admin_users_seq t + 1 |}).
  { intro Hnone. subst t1. unfold createDefaultAdmin. fold name password.
    cbn [nth]. rewrite Hnone. unfold insert_admin.
    now rewrite (find_none_existsb name _ Hnone). }
  split; [|split; [|split; [|split]]].
  - intros u Hu. subst t1. now apply (Hkeep now [] ADMIN_PASSWORD t u).
  - intro Hnone. now rewrite (Hadd Hnone).
  - destruct (admin_by_username (Some name) t) as [u|] eqn:Hu.
    + assert (t1 = t) as -> by (subst t1; now apply (Hkeep now [] ADMIN_PASSWORD t u)).
      now apply (Hkeep now' faults' ADMIN_PASSWORD' t u).
    + rewrite (Hadd eq_refl).
      eapply Hkeep. unfold admin_by_username. cbn [admin_users].
      now apply find_username_app.
  - unfold createDefaultAdmin. reflexivity.
  - unfold createDefaultAdmin. cbn [nth].
    now destruct (admin_by_username _ t).
Qed.

(** X28.  [createDefaultAdmin] adds an account only when the configured
    username (ADMIN_USERNAME, or "admin" when that is unset or empty) has
    none: it then appends one active account with the hash of the
    configured password.  An existing account of that name is left as it
    is, whatever ADMIN_PASSWORD says, so running it again, even with
    another password, changes nothing; and a storage failure leaves the
    accounts unchanged. *)
Theorem createDefaultAdmin_adds_once
    (now now' : datetime) (faults' : list bool)
    (ADMIN_USERNAME ADMIN_PASSWORD ADMIN_PASSWORD' : option string)
    (t : admin_table) :
  let name := or_default (js_or ADMIN_USERNAME (Some "admin")) "admin" in
  let password := or_default (js_or ADMIN_PASSWORD (Some "admin123")) "admin123" in
  let t1 := createDefaultAdmin bcrypt_hash now [] ADMIN_USERNAME ADMIN_PASSWORD t in
  (forall u, admin_by_username (Some name) t = Some u -> t1 = t) /\
  (admin_by_username (Some name) t = None ->
   admin_users t1 = admin_users t ++
     [ {| au_id := admin_users_seq t + 1; username := name;
          password_hash := bcrypt_hash password; email := None;
          au_is_active := true; last_login := None;
          au_created_at := now; au_updated_at := now |} ]) /\
  createDefaultAdmin bcrypt_hash now' faults' ADMIN_USERNAME ADMIN_PASSWORD' t1 = t1 /\
  createDefaultAdmin bcrypt_hash now [true] ADMIN_USERNAME ADMIN_PASSWORD t = t /\
  createDefaultAdmin bcrypt_hash now [false; true] ADMIN_USERNAME ADMIN_PASSWORD t = t.
Proof. apply createDefaultAdmin_cases. Qed.

(** X29.  The default account logs in.  If comparing a password with its
    own hash succeeds, then on accounts without an "admin", after
    [createDefaultAdmin] with ADMIN_USERNAME and ADMIN_PASSWORD unset, a
    login as "admin" with the password "admin123" is answered 200. *)
Theorem default_admin_logs_in (now now' : datetime) (t : admin_table) :
  (forall p, bcrypt_compare p (bcrypt_hash p) = true) ->
  admin_by_username (Some "admin") t = None ->
  let t1 := createDefaultAdmin bcrypt_hash now [] None None t in
  lr_status (fst (login bcrypt_compare jwt_sign now' [] (Some "admin")
                    (Some "admin123") t1)) = 200.
Proof.
  intros Hbcrypt Hnone t1.
  apply (login_cases now' [] (Some "admin") (Some "admin123") t1).
  repeat split.
  destruct (createDefaultAdmin_cases now now [] None None None t)
    as (_ & Hadd & _).
  specialize (Hadd Hnone). fold t1 in Hadd. cbn [js_or truthy or_default] in Hadd.
  eexists. split; [|split].
  - unfold admin_by_username. rewrite Hadd. apply find_username_app;
      [exact Hnone | reflexivity].
  - reflexivity.
  - cbn [or_default password_hash]. apply Hbcrypt.
Qed.

End CryptoFacts.

(** Stand-ins for the two libraries in the examples below: the hash of a
    password is the password behind "hash:", there is one token, "token",
    and it verifies as the payload of account 1. *)
Lemma login_refusals_witness :
  let compare p h := String.eqb ("hash:" ++ p)%string h in
  let sign (i : Z) (n : string) (t : datetime) := "token" in
  let account i n a := {| au_id := i; username := n; password_hash := "hash:secret";
                          email := None; au_is_active := a; last_login := None;
                          au_created_at := 1; au_updated_at := 1 |} in
  let t := {| admin_users := [account 1 "admin" true; account 2 "old" false];
              admin_users_seq := 2 |} in
  login compare sign 10 [] (Some "nobody") (Some "guess") t =
    login compare sign 10 [] (Some "admin") (Some "guess") t /\
  login compare sign 10 [] (Some "old") (Some "guess") t =
    (login_refused 401 "Account is disabled", t).
Proof.
  intros compare sign account t.
  destruct (login_refusals compare sign 10 "guess" "nobody" "admin" "old"
              (account 1 "admin" true) (account 2 "old" false) t)
    as (H1 & H2 & H3); try discriminate; try reflexivity.
  split; [now rewrite H1, H2 | exact H3].
Defined.

Lemma requireAuth_checks_the_account_witness :
  let verify (tok : string) (now : datetime) :=
    if String.eqb tok "token" then jwt_payload (Some 1) else JsonWebTokenError in
  let t := {| admin_users :=
                [ {| au_id := 1; username := "admin"; password_hash := "hash:secret";
                     email := None; au_is_active := false; last_login := None;
                     au_created_at := 1; au_updated_at := 1 |} ];
              admin_users_seq := 1 |} in
  requireAuth verify 10 [] (Some "Bearer token") (Some "other") None t =
    refused 401 "Invalid or expired token".
Proof.
  intros verify t.
  destruct (requireAuth_checks_the_account verify 10 [] "token" 1
              (Some "other") None t) as (_ & _ & H);
    [discriminate | reflexivity |].
  apply H; [reflexivity|]. intros u [= <-]. reflexivity.
Defined.

Lemma login_token_opens_requireAuth_witness :
  let compare p h := String.eqb ("hash:" ++ p)%string h in
  let sign (i : Z) (n : string) (t : datetime) := "token" in
  let verify (tok : string) (now : datetime) :=
    if String.eqb tok "token" then jwt_payload (Some 1) else JsonWebTokenError in
  let t := {| admin_users :=
                [ {| au_id := 1; username := "admin"; password_hash := "hash:secret";
                     email := None; au_is_active := true; last_login := None;
                     au_created_at := 1; au_updated_at := 1 |} ];
              admin_users_seq := 1 |} in
  let out := login compare sign 10 [] (Some "admin") (Some "secret") t in
  exists u, requireAuth verify 20 [] (Some "Bearer token") None None (snd out)
              = authenticated u /\
            last_login u = Some 10.
Proof.
  intros compare sign verify t out.
  destruct (login_token_opens_requireAuth compare sign verify 10 20
              (Some "admin") (Some "secret") t)
    as (tok & u & Htok & Hreq & _ & Hlast).
  - repeat constructor. cbn. tauto.
  - intros u [<-|[]]. split; [discriminate | reflexivity].
  - reflexivity.
  - exists u. split; [|exact Hlast].
    assert (tok = "token") as <-
      by (subst out; vm_compute in Htok; congruence).
    exact Hreq.
Defined.

Lemma default_admin_logs_in_witness :
  let compare p h := String.eqb ("hash:" ++ p)%string h in
  let hash p := ("hash:" ++ p)%string in
  let sign (i : Z) (n : string) (t : datetime) := "token" in
  let t1 := createDefaultAdmin hash 10 [] None None
              {| admin_users := []; admin_users_seq := 0 |} in
  lr_status (fst (login compare sign 20 [] (Some "admin") (Some "admin123") t1)) = 200.
Proof.
  intros compare hash sign t1.
  apply (default_admin_logs_in compare hash sign 10 20
           {| admin_users := []; admin_users_seq := 0 |}).
  - intro p. apply String.eqb_refl.
  - reflexivity.
Defined.
